(** * kaiju_data_tools: the FASTA accession filter and the newline converter

    A shallow embedding of [remove_acc.py] and of the post-processing step of
    [kaiju_nr_prepare.py], with the properties of the specification proved
    about it.

    Modelling conventions.
    - A Python [str] is a list of characters; a character is an 8-bit code
      point ([ascii]), so the whitespace class below is Python's
      [str.isspace] restricted to code points below 256.
    - A file is modelled at the level of Python's text layer: the content of
      a file is the text that [read()] returns and that iteration cuts into
      lines after every newline character.  The decoding and the
      translation of line ends that the text layer performs lie below the
      model; in an actual run a content therefore holds no carriage return,
      which no proof below relies on.  Opening a path for reading fails
      when the path is absent.  Opening a path for writing fails for the
      paths that the world marks as not writable (a missing directory, a
      denied permission, a directory of that name), with the exception
      that Python raises, and truncates otherwise; once a file is open,
      writing to it succeeds.
    - The text that [process_fasta] writes is gathered in the state of the
      loop and reaches its sink when the call ends; the input is read after
      the sink has been opened, as in the source.
    - The exclusion set is a [gset] of strings: only membership is
      observable, as with a Python [set] that is never iterated.
    - Counters are Python integers, unbounded: [nat]. *)

From Stdlib Require Import Ascii String.
From stdpp Require Import base list gmap strings pretty.

Abbreviation str := (list ascii).

(** A literal of the source, as a list of characters. *)
Definition lit (s : string) : str := list_ascii_of_string s.

Definition NL : ascii := "010"%char.
Definition CR : ascii := "013"%char.

(** ** Python string methods used by the scripts *)
Module Py.

(** [str.isspace] on one character (code points below 256): tab, line
    feed, vertical tab, form feed, carriage return, the four separators
    0x1c-0x1f, space, NEL (0x85) and no-break space (0xa0). *)
Definition isspace (c : ascii) : bool :=
  match c with
  | "009" | "010" | "011" | "012" | "013"
  | "028" | "029" | "030" | "031" | " " | "133" | "160" => true
  | _ => false
  end%char.

(** [s.startswith(prefix)] *)
Fixpoint startswith (s prefix : str) {struct prefix} : bool :=
  match prefix, s with
  | [], _ => true
  | p :: prefix', c :: s' => bool_decide (c = p) && startswith s' prefix'
  | _ :: _, [] => false
  end.

(** Removal of the trailing characters that satisfy [p]. *)
Fixpoint rstrip_by (p : ascii → bool) (s : str) : str :=
  match s with
  | [] => []
  | c :: s' =>
      match rstrip_by p s' with
      | [] => if p c then [] else [c]
      | r => c :: r
      end
  end.

(** Removal of the leading characters that satisfy [p]. *)
Fixpoint lstrip_by (p : ascii → bool) (s : str) : str :=
  match s with
  | [] => []
  | c :: s' => if p c then lstrip_by p s' else s
  end.

(** [s.rstrip(chars)] *)
Definition rstrip (chars : str) (s : str) : str :=
  rstrip_by (λ c, bool_decide (c ∈ chars)) s.

(** [s.strip()] *)
Definition strip (s : str) : str := lstrip_by isspace (rstrip_by isspace s).

(** [s.split()]: the maximal runs of characters that are not whitespace.
    [cur] is the token being read, most recent character first. *)
Fixpoint split_go (cur : str) (s : str) : list str :=
  match s with
  | [] => match cur with [] => [] | _ => [reverse cur] end
  | c :: s' =>
      if isspace c then
        match cur with
        | [] => split_go [] s'
        | _ => reverse cur :: split_go [] s'
        end
      else split_go (c :: cur) s'
  end.
Definition split (s : str) : list str := split_go [] s.

(** [''.join(l)] *)
Definition join_empty (l : list str) : str := concat l.

(** [sep.join(l)] *)
Fixpoint join (sep : str) (l : list str) : str :=
  match l with
  | [] => []
  | [x] => x
  | x :: l' => x ++ sep ++ join sep l'
  end.

(** [s.replace(old, new)]: occurrences of [old] are replaced from left to
    right, the search resuming after each replaced occurrence.  [skip]
    counts the characters of a replaced occurrence still to be passed. *)
Fixpoint replace_go (old new : str) (skip : nat) (s : str) : str :=
  match s with
  | [] => []
  | c :: s' =>
      match skip with
      | S k => replace_go old new k s'
      | O =>
          if startswith s old
          then new ++ replace_go old new (length old - 1) s'
          else c :: replace_go old new 0 s'
      end
  end.
Definition replace (old new s : str) : str :=
  match old with
  | [] => new ++ flat_map (λ c, c :: new) s
  | _ => replace_go old new 0 s
  end.

(** Iteration over a text file: the lines of [s], each with its
    terminating newline except possibly the last. *)
Fixpoint lines (s : str) : list str :=
  match s with
  | [] => []
  | c :: s' =>
      if bool_decide (c = NL) then [c] :: lines s'
      else match lines s' with
           | l :: ls => (c :: l) :: ls
           | [] => [[c]]
           end
  end.

(** [str(n)] for a non-negative integer. *)
Definition str_of_nat (n : nat) : str := lit (pretty n).

(** [s.split(sep)] for a separator [sep] that is not empty (Python raises
    [ValueError] on an empty one): the pieces between the occurrences of
    [sep], empty pieces included.  [cur] is the piece being read, most
    recent character first; [skip] as in [replace_go]. *)
Fixpoint split_sep_go (sep : str) (skip : nat) (cur : str) (s : str) : list str :=
  match s with
  | [] => [reverse cur]
  | c :: s' =>
      match skip with
      | S k => split_sep_go sep k cur s'
      | O =>
          if startswith s sep
          then reverse cur :: split_sep_go sep (length sep - 1) [] s'
          else split_sep_go sep 0 (c :: cur) s'
      end
  end.
Definition split_sep (sep s : str) : list str := split_sep_go sep 0 [] s.

(** [str.isprintable] on one character (code points below 256): the
    visible ASCII characters and the space, and the Latin-1 characters
    from 0xa1 on but the soft hyphen 0xad. *)
Definition isprintable (c : ascii) : bool :=
  let n := nat_of_ascii c in
  (bool_decide (32 ≤ n) && bool_decide (n < 127))
  || (bool_decide (161 ≤ n) && negb (bool_decide (n = 173))).

Definition hex_digit (n : nat) : ascii :=
  nth n (lit "0123456789abcdef") "0"%char.

(** One character inside [repr(s)], between quotes [quote]. *)
Definition repr_char (quote c : ascii) : str :=
  if bool_decide (c = quote) || bool_decide (c = "\"%char) then ["\"%char; c]
  else if bool_decide (c = "009"%char) then lit "\t"
  else if bool_decide (c = NL) then lit "\n"
  else if bool_decide (c = CR) then lit "\r"
  else if isprintable c then [c]
  else lit "\x" ++ [hex_digit (nat_of_ascii c / 16); hex_digit (nat_of_ascii c mod 16)].

(** [repr(s)]: between single quotes, or between double quotes when [s]
    holds a single quote and no double quote. *)
Definition repr (s : str) : str :=
  let quote :=
    if bool_decide ("'"%char ∈ s) && negb (bool_decide ("034"%char ∈ s))
    then "034"%char else "'"%char in
  [quote] ++ flat_map (repr_char quote) s ++ [quote].

(** [s.endswith(suffix)] for a suffix of one character. *)
Definition endswith_char (s : str) (c : ascii) : bool :=
  bool_decide (last s = Some c).

(** [os.path.join(a, b)] of [posixpath]. *)
Definition os_path_join (a b : str) : str :=
  if startswith b (lit "/") then b
  else if bool_decide (a = []) || endswith_char a "/"%char then a ++ b
  else a ++ lit "/" ++ b.

End Py.

(** ** The world the scripts run in *)


(** Why a path cannot be opened for writing. *)
Inductive open_failure :=
  | NoSuchDirectory
  | PermissionDenied
  | IsADirectory.

(** Files by path, the two standard streams as the text written to them so
    far, and the paths that cannot be opened for writing. *)
Record world := World {
  files : gmap str str;
  stdout : str;
  stderr : str;
  unwritable : gmap str open_failure
}.

(** The subclasses of [OSError] that [open] raises, with the file name. *)
Inductive exn :=
  | FileNotFoundError (path : str)
  | PermissionError (path : str)
  | IsADirectoryError (path : str).

Definition exn_of_failure (f : open_failure) (path : str) : exn :=
  match f with
  | NoSuchDirectory => FileNotFoundError path
  | PermissionDenied => PermissionError path
  | IsADirectory => IsADirectoryError path
  end.

(** How a call ends: it returns, an exception leaves it, or [sys.exit]. *)
Inductive outcome (A : Type) :=
  | Return (a : A) (w : world)
  | Raise (e : exn) (w : world)
  | Exit (code : nat) (w : world).
Arguments Return {A} a w.
Arguments Raise {A} e w.
Arguments Exit {A} code w.

(** The world a call leaves behind, however it ends. *)
Definition world_of {A} (o : outcome A) : world :=
  match o with
  | Return _ w => w
  | Raise _ w => w
  | Exit _ w => w
  end.

(** [print(text, file=sys.stderr)] *)
Definition print_stderr (text : str) (w : world) : world :=
  {| files := files w; stdout := stdout w; stderr := stderr w ++ text ++ [NL];
     unwritable := unwritable w |}.

(** The world in which the file at [path] holds [content]. *)
Definition write_file (path content : str) (w : world) : world :=
  {| files := <[path := content]> (files w); stdout := stdout w;
     stderr := stderr w; unwritable := unwritable w |}.

(** [open(path, 'w')]: the exception raised, or the world in which the
    file is open and empty. *)
Definition open_w (path : str) (w : world) : exn + world :=
  match unwritable w !! path with
  | Some f => inl (exn_of_failure f path)
  | None => inr (write_file path [] w)
  end.

(** ** remove_acc.py *)
Module RemoveAcc.

(** Body of the loop of [read_accessions_to_remove]. *)
Definition add_accession (accessions : gset str) (line : str) : gset str :=
  let line := Py.strip line in
  if negb (bool_decide (line = [])) && negb (Py.startswith line (lit "#"))
  then accessions ∪ {[ line ]}
  else accessions.

(** The loop of [read_accessions_to_remove] over the text of the file. *)
Definition accessions_of_text (content : str) : gset str :=
  foldl add_accession ∅ (Py.lines content).

Definition read_accessions_to_remove (accession_file : str) (w : world)
  : outcome (gset str) :=
  match files w !! accession_file with
  | None => Raise (FileNotFoundError accession_file) w
  | Some content => Return (accessions_of_text content) w
  end.

(** The local variables of [process_fasta]; [out_file] is the text this
    call has written to its output sink so far. *)
Record state := State {
  removed_count : nat;
  kept_count : nat;
  current_header : option str;
  current_sequence : list str;
  skip_current : bool;
  out_file : str
}.

Definition init : state :=
  {| removed_count := 0; kept_count := 0; current_header := None;
     current_sequence := []; skip_current := false; out_file := [] |}.

(** The nested function [write_sequence]: two writes. *)
Definition write_sequence (header : str) (sequence : list str) (out_file : str) : str :=
  (out_file ++ (header ++ [NL])) ++ (Py.join_empty sequence ++ [NL]).

(** "Process previous sequence if exists" / "Process last sequence":
    the block that appears twice in the source. *)
Definition process_previous (st : state) : state :=
  match current_header st with
  | Some header =>
      if negb (skip_current st) then
        {| removed_count := removed_count st;
           kept_count := kept_count st + 1;
           current_header := current_header st;
           current_sequence := current_sequence st;
           skip_current := skip_current st;
           out_file := write_sequence header (current_sequence st) (out_file st) |}
      else
        {| removed_count := removed_count st + 1;
           kept_count := kept_count st;
           current_header := current_header st;
           current_sequence := current_sequence st;
           skip_current := skip_current st;
           out_file := out_file st |}
  | None => st
  end.

(** [parts[0][1:] if len(parts) > 0 and len(parts[0]) > 1 else ''] *)
Definition accession_of (line : str) : str :=
  let parts := Py.split line in
  match parts with
  | p0 :: _ => if bool_decide (1 < length p0) then drop 1 p0 else []
  | [] => []
  end.

(** One iteration of [for line in in_file]. *)
Definition loop_body (accessions_to_remove : gset str) (st : state) (line : str) : state :=
  let line := Py.rstrip [NL; CR] line in
  if Py.startswith line (lit ">") then
    let st := process_previous st in
    let accession := accession_of line in
    {| removed_count := removed_count st;
       kept_count := kept_count st;
       current_header := Some line;
       current_sequence := [];
       skip_current := bool_decide (accession ∈ accessions_to_remove);
       out_file := out_file st |}
  else
    match current_header st with
    | Some _ =>
        {| removed_count := removed_count st;
           kept_count := kept_count st;
           current_header := current_header st;
           current_sequence := current_sequence st ++ [line];
           skip_current := skip_current st;
           out_file := out_file st |}
    | None => st
    end.

(** The pass over the lines of the input, from any state. *)
Definition pass_from (accessions_to_remove : gset str) (st : state) (lines : list str) : state :=
  process_previous (foldl (loop_body accessions_to_remove) st lines).

(** The whole pass over the text of the input file. *)
Definition filter_pass (content : str) (accessions_to_remove : gset str) : state :=
  pass_from accessions_to_remove init (Py.lines content).

(** The statistics line. *)
Definition summary (st : state) : str :=
  lit "Kept " ++ Py.str_of_nat (kept_count st) ++ lit " sequences, removed "
    ++ Py.str_of_nat (removed_count st) ++ lit " sequences".

(** Where [out_file] points. *)
Inductive sink :=
  | ToStdout
  | ToFile (path : str).

Definition sink_of (output_fasta : option str) : sink :=
  match output_fasta with
  | None => ToStdout
  | Some path => if bool_decide (path = lit "-") then ToStdout else ToFile path
  end.

#[global] Instance sink_eq_dec : EqDecision sink.
Proof. solve_decision. Defined.

(** [out_file = sys.stdout] or [out_file = open(output_fasta, 'w')] *)
Definition open_sink (k : sink) (w : world) : exn + world :=
  match k with
  | ToStdout => inr w
  | ToFile path => open_w path w
  end.

(** The text written by the call reaches the sink: appended to standard
    output, or the content of the file that [open(_, 'w')] truncated. *)
Definition commit (k : sink) (written : str) (w : world) : world :=
  match k with
  | ToStdout =>
      {| files := files w; stdout := stdout w ++ written; stderr := stderr w;
         unwritable := unwritable w |}
  | ToFile path => write_file path written w
  end.

Definition process_fasta (input_fasta : str) (output_fasta : option str)
    (accessions_to_remove : gset str) (w : world) : outcome unit :=
  let k := sink_of output_fasta in
  match open_sink k w with
  | inl e => Raise e w
  | inr w =>
      match files w !! input_fasta with
      | None => Raise (FileNotFoundError input_fasta) w
      | Some content =>
          let st := filter_pass content accessions_to_remove in
          Return tt (print_stderr (summary st) (commit k (out_file st) w))
      end
  end.

(** [main], from the parsed arguments on: [args.fasta_file],
    [args.accession_file] and [args.output] (a string, ["-"] by default). *)
Definition main (fasta_file accession_file output : str) (w : world) : outcome unit :=
  match read_accessions_to_remove accession_file w with
  | Return accessions_to_remove w =>
      let w := print_stderr
                 (lit "Loaded " ++ Py.str_of_nat (size accessions_to_remove)
                    ++ lit " accession(s) to remove") w in
      process_fasta fasta_file (Some output) accessions_to_remove w
  | Raise e w => Raise e w
  | Exit code w => Exit code w
  end.

End RemoveAcc.

(** ** kaiju_nr_prepare.py: the post-processing step *)
Module KaijuNrPrepare.

(** [str(e)] of the exception of a failed [open]: the error number, its
    message and the [repr] of the file name. *)
Definition str_of_exn (e : exn) : str :=
  match e with
  | FileNotFoundError path =>
      lit "[Errno 2] No such file or directory: " ++ Py.repr path
  | PermissionError path =>
      lit "[Errno 13] Permission denied: " ++ Py.repr path
  | IsADirectoryError path =>
      lit "[Errno 21] Is a directory: " ++ Py.repr path
  end.

Definition convert_literal_newlines (input_file output_file : str) (w : world)
  : outcome unit :=
  match files w !! input_file with
  | None =>
      Exit 1 (print_stderr
                (lit "Error converting newlines: "
                   ++ str_of_exn (FileNotFoundError input_file)) w)
  | Some content =>
      let content := Py.replace ["\"; "n"]%char [NL] content in
      match open_w output_file w with
      | inl e =>
          Exit 1 (print_stderr (lit "Error converting newlines: " ++ str_of_exn e) w)
      | inr w =>
          let w := write_file output_file content w in
          Return tt (print_stderr
                       (lit "Converted literal newlines: " ++ input_file
                          ++ lit " -> " ++ output_file) w)
      end
  end.

(** Body of the loop of [read_taxon_ids]. *)
Definition add_taxon_id (taxon_ids : list str) (line : str) : list str :=
  let line := Py.strip line in
  if negb (bool_decide (line = [])) then
    let fields := Py.split_sep ["009"%char] line in
    match fields with
    | field0 :: _ => taxon_ids ++ [field0]
    | [] => taxon_ids
    end
  else taxon_ids.

(** The list [taxon_ids] at the end of the loop of [read_taxon_ids]. *)
Definition taxon_id_list (content : str) : list str :=
  foldl add_taxon_id [] (Py.lines content).

Definition read_taxon_ids (input_file : str) (w : world) : outcome str :=
  match files w !! input_file with
  | None =>
      Exit 1 (print_stderr
                (lit "Error: Input file '" ++ input_file ++ lit "' not found.") w)
  | Some content => Return (Py.join (lit ",") (taxon_id_list content)) w
  end.

(** The number that [main] reports: [len(taxon_ids.split(','))]. *)
Definition found_count (taxon_ids : str) : nat :=
  length (Py.split_sep (lit ",") taxon_ids).

(** The two output paths that [main] determines; [isdir] is the answer of
    [os.path.isdir(args.output)]. *)
Definition output_paths (isdir : bool) (output : str) : str * str :=
  if isdir
  then (Py.os_path_join output (lit "euk_nr.txt"),
        Py.os_path_join output (lit "euk_nr.faa"))
  else (output ++ lit ".txt", output ++ lit ".faa").

End KaijuNrPrepare.

(** ** The data model of the specification *)
Module Spec.

(** A sequence record: its header line and the lines that followed it. *)
Record record := Rec {
  header : str;
  sequence_lines : list str
}.

(** A line is a header line when it begins with the marker character. *)
Definition is_header (line : str) : bool :=
  match line with
  | c :: _ => bool_decide (c = ">"%char)
  | [] => false
  end.

Fixpoint take_while {A} (p : A → bool) (l : list A) : list A :=
  match l with
  | x :: l' => if p x then x :: take_while p l' else []
  | [] => []
  end.

Fixpoint drop_while {A} (p : A → bool) (l : list A) : list A :=
  match l with
  | x :: l' => if p x then drop_while p l' else l
  | [] => []
  end.

(** The records of a sequence of lines: every header line opens a record
    that owns the lines up to the next header line or the end; a line
    that is not a header line opens nothing. *)
Fixpoint records (lines : list str) : list record :=
  match lines with
  | [] => []
  | l :: lines' =>
      if is_header l
      then Rec l (take_while (λ x, negb (is_header x)) lines') :: records lines'
      else records lines'
  end.

(** The first whitespace-delimited token of a line (empty: no token). *)
Definition first_token (line : str) : str :=
  take_while (λ c, negb (Py.isspace c)) (drop_while Py.isspace line).

(** The accession in the words of the specification. *)
Definition accession (line : str) : str :=
  let token := first_token line in
  if bool_decide (1 < length token) then drop 1 token else [].

(** The two output lines of a record. *)
Definition two_lines (r : record) : list str :=
  [header r ++ [NL]; concat (sequence_lines r) ++ [NL]].

(** A record as written: header line, then the sequence on one line. *)
Definition render (r : record) : str := concat (two_lines r).

(** The lines of the input as the filter sees them, line ends removed. *)
Definition stripped_lines (content : str) : list str :=
  Py.rstrip [NL; CR] <$> Py.lines content.

(** The number of header lines of the input. *)
Definition header_count (content : str) : nat :=
  length (filter (λ l, is_header l = true) (Py.lines content)).

(** The escaped newline of the extractor's output format: a backslash
    followed by the letter n. *)
Definition escape : str := ["\"; "n"]%char.

(** [pat] occurs in [s] at some position. *)
Fixpoint occurs_in (pat s : str) : bool :=
  Py.startswith s pat
  || match s with
     | [] => false
     | _ :: s' => occurs_in pat s'
     end.

(** A text cut at every escaped newline: the segments between them. *)
Fixpoint split_on_escape (s : str) : list str :=
  match s with
  | [] => [[]]
  | c :: s' =>
      match s' with
      | d :: s'' =>
          if bool_decide (c = "\"%char) && bool_decide (d = "n"%char)
          then [] :: split_on_escape s''
          else match split_on_escape s' with
               | seg :: segs => (c :: seg) :: segs
               | [] => [[c]]
               end
      | [] => [[c]]
      end
  end.

End Spec.

(** ** Notions used to state and prove the properties *)
Module Inv.
Import Py Spec RemoveAcc.

(** The filter keeps a record when its accession is not excluded. *)
Definition kept (excl : gset str) (r : record) : Prop :=
  accession_of (header r) ∉ excl.

#[global] Instance kept_dec excl r : Decision (kept excl r).
Proof. unfold kept. apply _. Defined.

(** The record that a state holds, completed by the lines to come. *)
Definition pending (st : state) (ls : list str) : list record :=
  match current_header st with
  | Some h =>
      [Rec h (current_sequence st ++ take_while (λ x, negb (is_header x)) ls)]
  | None => []
  end.

(** The skip flag agrees with the header held. *)
Definition consistent (excl : gset str) (st : state) : Prop :=
  ∀ h, current_header st = Some h →
       skip_current st = bool_decide (accession_of h ∈ excl).

(** A line of a text file: no newline inside, and not empty. *)
Definition line_shape (l : str) : Prop :=
  ∃ body, (NL ∉ body) ∧ (l = body ++ [NL] ∨ (l = body ∧ body ≠ [])).

(** What the filter sees of a line: no newline, nothing left to strip. *)
Definition clean (l : str) : Prop :=
  (NL ∉ l) ∧ rstrip [NL; CR] l = l.

(** A record of an input file, as the filter holds it. *)
Definition well_formed (r : record) : Prop :=
  is_header (header r) = true ∧ clean (header r)
  ∧ Forall (λ x, is_header x = false ∧ clean x) (sequence_lines r).

(** A record whose sequence is held on one line. *)
Definition unwrapped (r : record) : record :=
  Rec (header r) [concat (sequence_lines r)].

(** The two lines of a record, line ends removed. *)
Definition two_stripped (r : record) : list str :=
  [header r; concat (sequence_lines r)].

(** A line that the loader takes, and the accession it adds for it. *)
Definition listed (x line : str) : Prop :=
  x = strip line ∧ x ≠ [] ∧ startswith x (lit "#") = false.

(** A line of blanks only, or a line that begins with the comment mark. *)
Definition blank_or_comment (line : str) : bool :=
  forallb isspace line || startswith line (lit "#").

(** The sink can be opened: it is standard output, or a path that the
    world does not mark as not writable. *)
Definition writable_sink (k : sink) (w : world) : Prop :=
  match k with
  | ToStdout => True
  | ToFile path => unwritable w !! path = None
  end.

(** The world in which the sink is open: a file sink is empty. *)
Definition opened (k : sink) (w : world) : world :=
  match k with
  | ToStdout => w
  | ToFile path => write_file path [] w
  end.

(** The text that a sink holds. *)
Definition sink_text (k : sink) (w : world) : str :=
  match k with
  | ToStdout => stdout w
  | ToFile path => default [] (files w !! path)
  end.

(** The filter keeps a record when its accession, in the words of the
    specification, is not excluded. *)
Definition kept_by_spec (excl : gset str) (r : record) : Prop :=
  Spec.accession (header r) ∉ excl.

#[global] Instance kept_by_spec_dec excl r : Decision (kept_by_spec excl r).
Proof. unfold kept_by_spec. apply _. Defined.

(** The statistics line for given counts. *)
Definition summary_line (kept_n removed_n : nat) : str :=
  lit "Kept " ++ str_of_nat kept_n ++ lit " sequences, removed "
    ++ str_of_nat removed_n ++ lit " sequences".

(** The taxon identifier that a line of the taxon list gives: none for a
    blank line, else what precedes the first tab of the stripped line. *)
Definition taxon_id_of (line : str) : option str :=
  if bool_decide (strip line = []) then None
  else Some (take_while (λ c, negb (bool_decide (c = "009"%char))) (strip line)).

End Inv.

(** ** Inputs of the examples *)
Module Inputs.

Definition fasta1 : str :=
  lit ">ACC1 desc one" ++ [NL] ++ lit "AAAA" ++ [NL] ++ lit "CCCC" ++ [NL]
    ++ lit ">ACC2 desc two" ++ [NL] ++ lit "GGGG" ++ [NL].

Definition comments_world : world :=
  {| files := {[ lit "acc.txt" :=
                   lit "# accessions to drop" ++ [NL] ++ [NL]
                     ++ lit "   " ++ [NL] ++ lit "#ACC1" ++ [NL] ]};
     stdout := []; stderr := []; unwritable := ∅ |}.

Definition empty_input_world : world :=
  {| files := {[ lit "in.fa" := [] ]}; stdout := []; stderr := []; unwritable := ∅ |}.

Definition world_a : world :=
  {| files := {[ lit "a.fa" := fasta1 ]}; stdout := []; stderr := []; unwritable := ∅ |}.

Definition world_b : world :=
  {| files := {[ lit "b.fa" := fasta1; lit "old.fa" := lit ">X" ++ [NL] ]};
     stdout := lit "earlier output" ++ [NL];
     stderr := lit "Loaded 2 accession(s) to remove" ++ [NL];
     unwritable := ∅ |}.

Definition extractor_world : world :=
  {| files := {[ lit "euk_nr.txt" :=
                   lit ">P1_9606 kinase\nMKV" ++ [NL]
                     ++ lit ">P2_4932 actin\nLLA" ++ [NL] ]};
     stdout := []; stderr := []; unwritable := ∅ |}.

(** A world in which two paths cannot be opened for writing. *)
Definition locked_world : world :=
  {| files := {[ lit "in.fa" := fasta1; lit "keep.fa" := lit ">X" ++ [NL] ]};
     stdout := []; stderr := [];
     unwritable := {[ lit "nodir/out.fa" := NoSuchDirectory;
                      lit "keep.fa" := PermissionDenied ]} |}.

(** A world with a sequence file and an exclusion list. *)
Definition main_world : world :=
  {| files := {[ lit "in.fa" := fasta1;
                 lit "acc.txt" := lit "# drop" ++ [NL] ++ lit "ACC1" ++ [NL]
                                    ++ lit "ACC1" ++ [NL] ]};
     stdout := []; stderr := []; unwritable := ∅ |}.

(** A taxon list as the extractor reads it: identifier, tab, name. *)
Definition taxon_list : str :=
  lit "2759" ++ ["009"%char] ++ lit "Eukaryota" ++ [NL]
    ++ [NL]
    ++ lit "  4751" ++ ["009"%char] ++ lit "Fungi" ++ [NL].

Definition taxon_world : world :=
  {| files := {[ lit "taxa.tsv" := taxon_list ]}; stdout := []; stderr := []; unwritable := ∅ |}.

End Inputs.

(** ** The string methods and the scenarios of the specification, run *)
Example split_ex :
  Py.split (lit "  >ACC1   desc one ") = [lit ">ACC1"; lit "desc"; lit "one"].
Proof. reflexivity. Qed.

Example rstrip_ex :
  Py.rstrip [NL; CR] (lit "AC" ++ [CR; NL]) = lit "AC".
Proof. reflexivity. Qed.

Example lines_ex :
  Py.lines (lit "ab" ++ [NL] ++ [NL] ++ lit "c") = [lit "ab" ++ [NL]; [NL]; lit "c"].
Proof. reflexivity. Qed.

Example replace_ex :
  Py.replace (lit "aa") (lit "b") (lit "aaaxaa") = lit "baxb".
Proof. reflexivity. Qed.

Example replace_empty_ex :
  Py.replace [] (lit "-") (lit "abc") = lit "-a-b-c-".
Proof. reflexivity. Qed.

Example str_of_nat_ex : Py.str_of_nat 120 = lit "120".
Proof. vm_compute. reflexivity. Qed.

Section Scenarios.
Import RemoveAcc Inputs.

Example scenario_exclude_one :
  let st := filter_pass fasta1 {[ lit "ACC1" ]} in
  out_file st = lit ">ACC2 desc two" ++ [NL] ++ lit "GGGG" ++ [NL]
  ∧ kept_count st = 1 ∧ removed_count st = 1.
Proof. vm_compute. done. Qed.

Example scenario_leading_lines :
  let st := filter_pass (lit "junk" ++ [NL] ++ fasta1) ∅ in
  out_file st = lit ">ACC1 desc one" ++ [NL] ++ lit "AAAACCCC" ++ [NL]
                  ++ lit ">ACC2 desc two" ++ [NL] ++ lit "GGGG" ++ [NL]
  ∧ kept_count st = 2 ∧ removed_count st = 0.
Proof. vm_compute. done. Qed.

Example scenario_summary :
  summary (filter_pass fasta1 {[ lit "ACC1" ]})
  = lit "Kept 1 sequences, removed 1 sequences".
Proof. vm_compute. done. Qed.

End Scenarios.

(** ** Lemmas on the string methods *)
Section StringLemmas.
Import Py Spec Inv.

Lemma startswith_is_header (l : str) : startswith l (lit ">") = is_header l.
Proof. destruct l as [|c l]; cbn; [done|]. by rewrite andb_true_r. Qed.

Lemma rstrip_by_app_all (p : ascii → bool) (s t : str) :
  forallb p t = true → rstrip_by p (s ++ t) = rstrip_by p s.
Proof.
  intros Ht. assert (Hnil : rstrip_by p t = []).
  { induction t as [|c t IH]; simpl in *; [done|].
    apply andb_prop in Ht as [Hc Ht]. by rewrite IH, Hc. }
  induction s as [|c s IH]; simpl; [done|]. by rewrite IH.
Qed.

Lemma rstrip_by_nil_iff (p : ascii → bool) (s : str) :
  rstrip_by p s = [] ↔ forallb p s = true.
Proof.
  induction s as [|c s IH]; simpl; [done|].
  destruct (rstrip_by p s) eqn:E.
  - destruct (p c); simpl; [tauto|]. split; [done|intros [=]].
  - split; [done|]. intros [_ H]%andb_prop. apply IH in H. done.
Qed.

(** [rstrip_by] returns a prefix of its argument. *)
Lemma rstrip_by_prefix (p : ascii → bool) (s : str) :
  ∃ t, s = rstrip_by p s ++ t ∧ forallb p t = true.
Proof.
  induction s as [|c s (t & Hs & Ht)]; simpl; [by exists []|].
  destruct (rstrip_by p s) eqn:E.
  - destruct (p c) eqn:Hc.
    + exists (c :: s). split; [done|]. simpl. rewrite Hc. simpl.
      by apply rstrip_by_nil_iff.
    + exists s. split; [done|]. by apply rstrip_by_nil_iff.
  - exists t. split; [|done]. simpl. by rewrite Hs at 1.
Qed.

Lemma rstrip_by_idemp (p : ascii → bool) (s : str) :
  rstrip_by p (rstrip_by p s) = rstrip_by p s.
Proof.
  destruct (rstrip_by_prefix p s) as (t & Hs & Ht).
  rewrite Hs at 2. by rewrite rstrip_by_app_all.
Qed.

(** A string is stable when [rstrip_by p] leaves it as it is. *)
Lemma rstrip_by_stable_app (p : ascii → bool) (s t : str) :
  rstrip_by p s = s → rstrip_by p t = t → rstrip_by p (s ++ t) = s ++ t.
Proof.
  intros Hs Ht. destruct t as [|c t].
  { by rewrite app_nil_r. }
  clear Hs. induction s as [|d s IH]; simpl; [done|].
  simpl in IH. rewrite IH.
  destruct (s ++ c :: t) eqn:E; [|done].
  by destruct s.
Qed.

Lemma rstrip_by_stable_concat (p : ascii → bool) (l : list str) :
  Forall (λ s, rstrip_by p s = s) l → rstrip_by p (concat l) = concat l.
Proof.
  induction 1 as [|s l Hs _ IH]; simpl; [done|].
  by apply rstrip_by_stable_app.
Qed.

Lemma is_header_rstrip (l : str) :
  is_header (rstrip [NL; CR] l) = is_header l.
Proof.
  destruct l as [|c l]; simpl; [done|]. unfold rstrip. simpl.
  destruct (rstrip_by _ l) eqn:E; [|done].
  case_bool_decide as Hc; simpl; [|done].
  case_bool_decide as Hgt; [|done]. subst c.
  exfalso. revert Hc. rewrite !elem_of_cons, elem_of_nil.
  intros [H|[H|[]]]; discriminate H.
Qed.

Lemma not_elem_of_rstrip (c : ascii) (chars s : str) :
  c ∉ s → c ∉ rstrip chars s.
Proof.
  intros Hc Hin. apply Hc.
  destruct (rstrip_by_prefix (λ c, bool_decide (c ∈ chars)) s) as (t & Hs & _).
  rewrite Hs. apply elem_of_app. by left.
Qed.

(** The first element of [split] is the first token. *)
Lemma split_go_head_cur (s cur : str) :
  cur ≠ [] →
  hd [] (split_go cur s) = reverse cur ++ take_while (λ c, negb (isspace c)) s.
Proof.
  revert cur. induction s as [|c s IH]; intros cur Hcur; simpl.
  - destruct cur; [done|]. simpl. by rewrite app_nil_r.
  - destruct (isspace c); simpl.
    + destruct cur; [done|]. simpl. by rewrite app_nil_r.
    + rewrite IH by done. by rewrite reverse_cons, <- app_assoc.
Qed.

Lemma split_head (s : str) : hd [] (split s) = first_token s.
Proof.
  unfold split, first_token. induction s as [|c s IH]; simpl; [done|].
  destruct (isspace c) eqn:Hc; simpl; [done|].
  rewrite Hc. simpl. by rewrite split_go_head_cur.
Qed.

Lemma split_go_no_empty (s cur : str) : [] ∉ split_go cur s.
Proof.
  assert (Hrev : ∀ (c : ascii) l, [] ≠ reverse (c :: l)).
  { intros c l H. apply (f_equal length) in H.
    rewrite length_reverse in H. done. }
  revert cur. induction s as [|c s IH]; intros cur; simpl.
  - destruct cur; [apply not_elem_of_nil|].
    intros H%list_elem_of_singleton. by apply Hrev in H.
  - destruct (isspace c); [|apply IH].
    destruct cur; [apply IH|].
    apply not_elem_of_cons. split; [apply Hrev|apply IH].
Qed.

End StringLemmas.

(** ** Lemmas on the iteration over lines *)
Section LinesLemmas.
Import Py Spec Inv.

Lemma lines_nonempty (c : ascii) (s : str) : lines (c :: s) ≠ [].
Proof. simpl. case_bool_decide; [done|]. by destruct (lines s). Qed.

Lemma concat_lines (s : str) : concat (lines s) = s.
Proof.
  induction s as [|c s IH]; simpl; [done|].
  case_bool_decide; simpl; [by rewrite IH|].
  destruct (lines s) as [|l ls] eqn:E; simpl in *.
  - by rewrite <- IH.
  - by rewrite <- IH.
Qed.

Lemma lines_shape (s : str) : Forall line_shape (lines s).
Proof.
  induction s as [|c s IH]; simpl; [constructor|].
  case_bool_decide as Hc.
  - subst c. constructor; [|done]. exists []. split; [apply not_elem_of_nil|by left].
  - destruct (lines s) as [|l ls]; constructor.
    + exists [c]. split; [|by right].
      intros Hin. apply list_elem_of_singleton in Hin. by subst c.
    + constructor.
    + apply Forall_cons in IH as [(body & Hb & Hl) _].
      exists (c :: body). split.
      * intros [Heq|?]%elem_of_cons; [by subst c|done].
      * destruct Hl as [->|[-> _]]; [by left|by right].
    + by apply Forall_cons in IH as [_ ?].
Qed.

(** Cutting a text into lines, at a line that is terminated. *)
Lemma lines_app_NL (a rest : str) :
  NL ∉ a → lines (a ++ NL :: rest) = (a ++ [NL]) :: lines rest.
Proof.
  induction a as [|c a IH]; intros Ha; simpl.
  - done.
  - apply not_elem_of_cons in Ha as [Hc Ha].
    case_bool_decide; [by subst c|]. by rewrite IH.
Qed.

Lemma rstrip_line_NL (body : str) :
  rstrip [NL; CR] (body ++ [NL]) = rstrip [NL; CR] body.
Proof. unfold rstrip. by apply rstrip_by_app_all. Qed.

Lemma stripped_lines_clean (content : str) :
  Forall clean (stripped_lines content).
Proof.
  unfold stripped_lines. apply Forall_fmap.
  eapply Forall_impl; [apply lines_shape|].
  intros l (body & Hb & Hl). split.
  - destruct Hl as [->|[-> _]].
    + rewrite rstrip_line_NL. by apply not_elem_of_rstrip.
    + by apply not_elem_of_rstrip.
  - apply rstrip_by_idemp.
Qed.

Lemma header_count_stripped (content : str) :
  header_count content
  = length (filter (λ l, is_header l = true) (stripped_lines content)).
Proof.
  unfold header_count, stripped_lines.
  induction (lines content) as [|l ls IH]; [done|].
  rewrite fmap_cons, !filter_cons, is_header_rstrip.
  destruct (decide (is_header l = true)); simpl; by rewrite IH.
Qed.

End LinesLemmas.

(** ** The pass of the filter against the records of the input *)
Section PassLemmas.
Import Py Spec RemoveAcc Inv Inputs.
Context (excl : gset str).

Lemma consistent_init : consistent excl init.
Proof. intros h [=]. Qed.

Lemma pass_from_records (lines : list str) (st : state) :
  consistent excl st →
  let rs := pending st (rstrip [NL; CR] <$> lines)
              ++ records (rstrip [NL; CR] <$> lines) in
  let fin := pass_from excl st lines in
  out_file fin = out_file st ++ concat (render <$> filter (kept excl) rs)
  ∧ kept_count fin = kept_count st + length (filter (kept excl) rs)
  ∧ removed_count fin = removed_count st + length (filter (λ r, ¬ kept excl r) rs).
Proof.
  revert st. induction lines as [|l lines IH]; intros st Hst.
  - unfold pass_from, pending, process_previous. simpl.
    destruct (current_header st) as [h|] eqn:Hh; simpl.
    + specialize (Hst h Hh). rewrite app_nil_r.
      destruct (skip_current st) eqn:Hs; simpl; symmetry in Hst.
      * apply bool_decide_eq_true in Hst.
        rewrite (filter_cons_False (kept excl)), (filter_cons_True (λ r, ¬ kept excl r))
          by (unfold kept; simpl; tauto).
        simpl. rewrite app_nil_r. split_and!; lia || done.
      * apply bool_decide_eq_false in Hst.
        rewrite (filter_cons_True (kept excl)), (filter_cons_False (λ r, ¬ kept excl r))
          by (unfold kept; simpl; tauto).
        unfold write_sequence, render, join_empty. simpl.
        rewrite !app_nil_r, <- !app_assoc. split_and!; lia || done.
    + rewrite app_nil_r. split_and!; lia || done.
  - intros rs fin. subst rs fin.
    change (pass_from excl st (l :: lines))
      with (pass_from excl (loop_body excl st l) lines).
    rewrite fmap_cons. set (ls := rstrip [NL; CR] <$> lines).
    set (l' := rstrip [NL; CR] l).
    unfold loop_body. fold l'. rewrite startswith_is_header.
    simpl records. destruct (is_header l') eqn:Hl'.
    + (* a header line: the record held is complete *)
      set (st1 := process_previous st).
      match goal with |- context [pass_from excl ?s lines] => set (st' := s) end.
      assert (Hst' : consistent excl st') by (by intros h [= <-]).
      destruct (IH st' Hst') as (Ho & Hk & Hr). fold ls in Ho, Hk, Hr.
      replace (pending st' ls ++ records ls)
        with (Rec l' (take_while (λ x, negb (is_header x)) ls) :: records ls)
        in Ho, Hk, Hr by done.
      rewrite Ho, Hk, Hr. simpl out_file. simpl kept_count. simpl removed_count.
      unfold st1, pending, process_previous.
      destruct (current_header st) as [h|] eqn:Hh; [|done].
      specialize (Hst h Hh). simpl take_while. rewrite Hl'. simpl negb.
      cbv iota. rewrite app_nil_r. simpl app.
      destruct (skip_current st) eqn:Hs; simpl; symmetry in Hst.
      * apply bool_decide_eq_true in Hst.
        rewrite (filter_cons_False (kept excl) (Rec h _)),
          (filter_cons_True (λ r, ¬ kept excl r) (Rec h _))
          by (unfold kept; simpl; tauto).
        simpl. split_and!; lia || done.
      * apply bool_decide_eq_false in Hst.
        rewrite (filter_cons_True (kept excl) (Rec h _)),
          (filter_cons_False (λ r, ¬ kept excl r) (Rec h _))
          by (unfold kept; simpl; tauto).
        unfold write_sequence, render, join_empty. simpl.
        rewrite !app_nil_r, <- !app_assoc. simpl. split_and!; lia || done.
    + (* any other line *)
      destruct (current_header st) as [h|] eqn:Hh.
      * match goal with |- context [pass_from excl ?s lines] => set (st' := s) end.
        assert (Hst' : consistent excl st').
        { intros h' Hh'. unfold st' in *. simpl in *. apply Hst. congruence. }
        destruct (IH st' Hst') as (Ho & Hk & Hr). fold ls in Ho, Hk, Hr.
        replace (pending st' ls) with (pending st (l' :: ls)) in Ho, Hk, Hr.
        { by rewrite Ho, Hk, Hr. }
        unfold pending, st'. simpl. rewrite Hh, Hl'. simpl.
        by rewrite <- app_assoc.
      * destruct (IH st Hst) as (Ho & Hk & Hr). fold ls in Ho, Hk, Hr.
        unfold pending in *. rewrite Hh in *. done.
Qed.

(** The pass from the initial state: exactly the kept records of the
    input, rendered in order, and their numbers. *)
Lemma filter_pass_records (content : str) :
  let rs := records (stripped_lines content) in
  let fin := filter_pass content excl in
  out_file fin = concat (render <$> filter (kept excl) rs)
  ∧ kept_count fin = length (filter (kept excl) rs)
  ∧ removed_count fin = length (filter (λ r, ¬ kept excl r) rs).
Proof.
  destruct (pass_from_records (lines content) init consistent_init)
    as (Ho & Hk & Hr).
  done.
Qed.

End PassLemmas.

(** ** Records, header lines and leading lines *)
Section RecordLemmas.
Import Py Spec RemoveAcc Inv Inputs.

Lemma records_drop_leading (ls : list str) :
  records (drop_while (λ l, negb (is_header l)) ls) = records ls.
Proof.
  induction ls as [|l ls IH]; simpl; [done|].
  destruct (is_header l) eqn:Hl; simpl; [by rewrite Hl|done].
Qed.

Lemma foldl_leading (excl : gset str) (lines : list str) :
  foldl (loop_body excl) init (drop_while (λ l, negb (is_header l)) lines)
  = foldl (loop_body excl) init lines.
Proof.
  induction lines as [|l lines IH]; simpl; [done|].
  destruct (is_header l) eqn:Hl; simpl; [done|].
  rewrite IH. f_equal. unfold loop_body.
  by rewrite startswith_is_header, is_header_rstrip, Hl.
Qed.

Lemma length_records (ls : list str) :
  length (records ls) = length (filter (λ l, is_header l = true) ls).
Proof.
  induction ls as [|l ls IH]; [done|].
  simpl records. destruct (is_header l) eqn:Hl.
  - rewrite filter_cons_True by done. simpl. by rewrite IH.
  - rewrite filter_cons_False by (by rewrite Hl). done.
Qed.

Lemma length_filter_split {A} (P : A → Prop) `{!∀ x, Decision (P x)} (l : list A) :
  length (filter P l) + length (filter (λ x, ¬ P x) l) = length l.
Proof.
  induction l as [|x l IH]; simpl; [done|].
  rewrite !filter_cons.
  destruct (decide (P x)), (decide (¬ P x)); simpl; try tauto; lia.
Qed.

Lemma Forall_filter_keep {A} (P Q : A → Prop) `{!∀ x, Decision (P x)} (l : list A) :
  Forall Q l → Forall Q (filter P l).
Proof.
  rewrite !Forall_forall. intros HQ x [_ Hx]%list_elem_of_filter. by apply HQ.
Qed.

(** The headers of the records are header lines, their sequence lines are
    not, and all of them are lines of the input. *)
Lemma records_wf (ls : list str) (P : str → Prop) :
  Forall P ls →
  Forall (λ r, is_header (header r) = true ∧ P (header r)
               ∧ Forall (λ x, is_header x = false ∧ P x) (sequence_lines r))
         (records ls).
Proof.
  induction 1 as [|l ls Hl Hls IH]; simpl; [constructor|].
  destruct (is_header l) eqn:E; [|done].
  constructor; [|done]. simpl. split_and!; [done..|].
  clear IH E Hl. induction Hls as [|x ls Hx Hls IH]; simpl; [constructor|].
  destruct (is_header x) eqn:E; simpl; [constructor|].
  constructor; [done|]. apply IH.
Qed.

End RecordLemmas.

(** ** Reading the output of the filter back *)
Section OutputLemmas.
Import Py Spec RemoveAcc Inv Inputs.

Lemma records_well_formed (content : str) :
  Forall well_formed (records (stripped_lines content)).
Proof. apply records_wf, stripped_lines_clean. Qed.

Lemma is_header_concat (l : list str) :
  Forall (λ x, is_header x = false) l → is_header (concat l) = false.
Proof.
  induction 1 as [|x l Hx _ IH]; simpl; [done|].
  destruct x as [|c x]; simpl in *; done.
Qed.

Lemma not_elem_of_concat (c : ascii) (l : list str) :
  Forall (λ x, c ∉ x) l → c ∉ concat l.
Proof.
  induction 1 as [|x l Hx _ IH]; simpl; [apply not_elem_of_nil|].
  by apply not_elem_of_app.
Qed.

Lemma well_formed_joined (r : record) :
  well_formed r →
  is_header (concat (sequence_lines r)) = false ∧ clean (concat (sequence_lines r)).
Proof.
  intros (_ & _ & Hseq). split; [|split].
  - apply is_header_concat. eapply Forall_impl; [done|]. by intros x [? _].
  - apply not_elem_of_concat. eapply Forall_impl; [done|]. by intros x (_ & ? & _).
  - apply rstrip_by_stable_concat. eapply Forall_impl; [done|]. by intros x (_ & _ & ?).
Qed.

Lemma lines_render (rs : list record) :
  Forall well_formed rs →
  lines (concat (render <$> rs)) = rs ≫= two_lines.
Proof.
  induction 1 as [|r rs Hr _ IH]; [done|].
  destruct (well_formed_joined r Hr) as (_ & Hj & _).
  destruct Hr as (_ & [Hh _] & _).
  rewrite fmap_cons, bind_cons, <- IH.
  change (concat (render r :: (render <$> rs)))
    with (render r ++ concat (render <$> rs)).
  generalize (concat (render <$> rs)). intros rest.
  unfold render, two_lines. simpl.
  rewrite app_nil_r, <- !app_assoc. simpl.
  rewrite lines_app_NL by done. by rewrite lines_app_NL by done.
Qed.

Lemma rstrip_two_lines (rs : list record) :
  Forall well_formed rs →
  rstrip [NL; CR] <$> (rs ≫= two_lines) = rs ≫= two_stripped.
Proof.
  induction 1 as [|r rs Hr _ IH]; [done|].
  destruct (well_formed_joined r Hr) as (_ & _ & Hj).
  destruct Hr as (_ & [_ Hh] & _).
  rewrite !bind_cons, fmap_app, IH. unfold two_lines, two_stripped.
  by rewrite !fmap_cons, !rstrip_line_NL, Hh, Hj.
Qed.

Lemma records_two_stripped (rs : list record) :
  Forall well_formed rs →
  records (rs ≫= two_stripped) = unwrapped <$> rs.
Proof.
  induction 1 as [|r rs Hr Hrs IH]; [done|].
  destruct (well_formed_joined r Hr) as (Hj & _).
  destruct Hr as (Hh & _).
  rewrite bind_cons, fmap_cons, <- IH. unfold two_stripped at 1.
  simpl. rewrite Hh, Hj. simpl. f_equal.
  unfold unwrapped. do 2 f_equal.
  destruct Hrs as [|r' rs' (Hh' & _) _]; [done|].
  simpl. by rewrite Hh'.
Qed.

Lemma render_unwrapped (r : record) : render (unwrapped r) = render r.
Proof. unfold render, unwrapped, two_lines. simpl. by rewrite !app_nil_r. Qed.

Lemma filter_kept_unwrapped (excl : gset str) (rs : list record) :
  Forall (kept excl) rs →
  filter (kept excl) (unwrapped <$> rs) = unwrapped <$> rs
  ∧ filter (λ r, ¬ kept excl r) (unwrapped <$> rs) = [].
Proof.
  induction 1 as [|r rs Hr _ [IH1 IH2]]; [done|].
  rewrite fmap_cons.
  rewrite (filter_cons_True (kept excl)) by exact Hr.
  rewrite (filter_cons_False (λ r, ¬ kept excl r)) by (intros H; exact (H Hr)).
  by rewrite IH1, IH2.
Qed.

End OutputLemmas.

(** ** The exclusion list loader *)
Section LoaderLemmas.
Import Py Spec RemoveAcc Inv Inputs.

Lemma elem_of_foldl_add_accession (ls : list str) (X : gset str) (x : str) :
  x ∈ foldl add_accession X ls ↔ x ∈ X ∨ ∃ line, line ∈ ls ∧ listed x line.
Proof.
  revert X. induction ls as [|l ls IH]; intros X; simpl.
  - split; [by left|]. intros [?|(line & []%elem_of_nil & _)]. done.
  - rewrite IH. unfold add_accession at 1.
    destruct (negb (bool_decide (strip l = [])) && negb (startswith (strip l) (lit "#")))
      eqn:E.
    + apply andb_prop in E as [E1%negb_true_iff%bool_decide_eq_false
                               E2%negb_true_iff].
      rewrite elem_of_union, elem_of_singleton. split.
      * intros [[?| ->]|(line & Hin & Hl)]; [by left| |].
        -- right. exists l. split; [by left|done].
        -- right. exists line. split; [by right|done].
      * intros [?|(line & Hin & Hl)]; [by left; left|].
        apply elem_of_cons in Hin as [-> |Hin].
        -- left. right. by destruct Hl.
        -- right. by exists line.
    + split.
      * intros [?|(line & Hin & Hl)]; [by left|].
        right. exists line. split; [by right|done].
      * intros [?|(line & Hin & Hl)]; [by left|].
        apply elem_of_cons in Hin as [-> |Hin]; [|right; by exists line].
        exfalso. destruct Hl as (-> & Hne & Hhash).
        rewrite Hhash in E. simpl in E. rewrite andb_true_r in E.
        apply negb_false_iff, bool_decide_eq_true in E. done.
Qed.

Lemma elem_of_accessions_of_text (content x : str) :
  x ∈ accessions_of_text content ↔ ∃ line, line ∈ lines content ∧ listed x line.
Proof.
  unfold accessions_of_text. rewrite elem_of_foldl_add_accession.
  split; [|by right]. intros [[]%elem_of_empty|?]. done.
Qed.

Lemma empty_not_in_accessions (content : str) : [] ∉ accessions_of_text content.
Proof.
  intros (line & _ & _ & Hne & _)%elem_of_accessions_of_text. done.
Qed.

Lemma strip_hash (line : str) :
  startswith line (lit "#") = true → startswith (strip line) (lit "#") = true.
Proof.
  destruct line as [|c line]; [done|]. cbn. intros Hc.
  apply andb_prop in Hc as [Hc%bool_decide_eq_true _]. subst c.
  unfold strip. simpl. by destruct (rstrip_by isspace line).
Qed.

Lemma strip_blank (line : str) :
  forallb isspace line = true → strip line = [].
Proof.
  intros H. unfold strip. by rewrite (proj2 (rstrip_by_nil_iff _ _) H).
Qed.

Lemma blank_or_comment_not_listed (x line : str) :
  blank_or_comment line = true → ¬ listed x line.
Proof.
  intros [H|H]%orb_prop (-> & Hne & Hhash).
  - by rewrite strip_blank in Hne.
  - by rewrite strip_hash in Hhash.
Qed.

Lemma comments_only_empty (content : str) :
  forallb blank_or_comment (lines content) = true →
  accessions_of_text content = ∅.
Proof.
  intros H. apply set_eq. intros x.
  rewrite elem_of_accessions_of_text. split; [|by intros []%elem_of_empty].
  intros (line & Hin & Hl). exfalso.
  rewrite forallb_forall in H.
  apply (blank_or_comment_not_listed x line); [|done].
  apply H. by apply list_elem_of_In.
Qed.

Lemma filter_not_kept_empty (rs : list record) :
  filter (λ r, ¬ kept ∅ r) rs = [].
Proof.
  induction rs as [|r rs IH]; [done|].
  rewrite filter_cons_False; [done|].
  intros H. apply H. unfold kept. apply not_elem_of_empty.
Qed.

Lemma removed_count_empty_set (content : str) :
  removed_count (filter_pass content ∅) = 0.
Proof.
  destruct (filter_pass_records ∅ content) as (_ & _ & ->).
  by rewrite filter_not_kept_empty.
Qed.

(** The expression of the source computes the accession of the
    specification. *)
Lemma accession_of_spec (line : str) : accession_of line = Spec.accession line.
Proof.
  unfold accession_of, Spec.accession.
  rewrite <- split_head. by destruct (split line).
Qed.

Lemma concat_render_elem (r : record) (rs : list record) :
  r ∈ rs →
  ∃ before after, concat (render <$> rs) = before ++ render r ++ after.
Proof.
  intros (l1 & l2 & ->)%list_elem_of_split.
  exists (concat (render <$> l1)), (concat (render <$> l2)).
  by rewrite fmap_app, concat_app.
Qed.

End LoaderLemmas.

(** ** The properties of the specification: the filter *)
Section FilterProperties.
Import Py Spec RemoveAcc Inv Inputs.

(** C1. The output of the filter consists of exactly the records of the
    input whose accession is absent from the exclusion set, rendered in the
    order of the input; the lines before the first header line belong to no
    record and the pass is the same without them. *)
Theorem filter_output_is_kept_records (content : str) (excl : gset str) :
  out_file (filter_pass content excl)
  = concat (render <$> filter (λ r, Spec.accession (header r) ∉ excl)
                              (records (stripped_lines content)))
  ∧ records (drop_while (λ l, negb (is_header l)) (stripped_lines content))
    = records (stripped_lines content)
  ∧ pass_from excl init (drop_while (λ l, negb (is_header l)) (lines content))
    = filter_pass content excl.
Proof.
  split_and!.
  - destruct (filter_pass_records excl content) as (-> & _).
    do 2 f_equal. apply list_filter_iff. intros r. unfold kept.
    by rewrite accession_of_spec.
  - apply records_drop_leading.
  - unfold filter_pass, pass_from. by rewrite foldl_leading.
Qed.

(** C2. Each record of the input is counted once, as kept or as removed
    and never as both: the block that finishes a record adds one to
    exactly one counter, the kept count is the number of records not
    excluded, the removed count the number of excluded ones, and the two
    add up to the number of header lines of the input. *)
Theorem count_conservation (content : str) (excl : gset str) :
  let rs := records (stripped_lines content) in
  let fin := filter_pass content excl in
  (∀ st : state,
     let st' := process_previous st in
     match current_header st with
     | Some _ =>
         (kept_count st' = kept_count st + 1 ∧ removed_count st' = removed_count st)
         ∨ (kept_count st' = kept_count st ∧ removed_count st' = removed_count st + 1)
     | None => st' = st
     end)
  ∧ kept_count fin = length (filter (kept excl) rs)
  ∧ removed_count fin = length (filter (λ r, ¬ kept excl r) rs)
  ∧ length rs = header_count content
  ∧ kept_count fin + removed_count fin = header_count content.
Proof.
  intros rs fin.
  destruct (filter_pass_records excl content) as (_ & Hk & Hr).
  fold rs fin in Hk, Hr.
  assert (Hn : length rs = header_count content).
  { unfold rs. by rewrite length_records, header_count_stripped. }
  split_and!; [|done..|].
  - intros st. unfold process_previous. simpl.
    destruct (current_header st); [|done].
    destruct (skip_current st); simpl; [by right|by left].
  - rewrite Hk, Hr, <- Hn. apply length_filter_split.
Qed.

(** C3. A kept record is written as exactly two lines whatever the
    number of lines its sequence spanned in the input: the two writes of
    [write_sequence] are the header line and the sequence lines
    concatenated with nothing between them, and read back line by line the
    output is, record after record, these two lines. *)
Theorem kept_record_is_two_lines (content : str) (excl : gset str) :
  let ks := filter (kept excl) (records (stripped_lines content)) in
  (∀ (header : str) (sequence : list str) (out : str),
     write_sequence header sequence out
     = out ++ (header ++ [NL]) ++ (concat sequence ++ [NL]))
  ∧ out_file (filter_pass content excl) = concat (render <$> ks)
  ∧ lines (out_file (filter_pass content excl))
    = ks ≫= (λ r, [header r ++ [NL]; concat (sequence_lines r) ++ [NL]]).
Proof.
  intros ks.
  destruct (filter_pass_records excl content) as (Ho & _).
  split_and!.
  - intros h sq out. unfold write_sequence, join_empty. by rewrite <- app_assoc.
  - done.
  - rewrite Ho. apply lines_render.
    apply Forall_filter_keep, records_well_formed.
Qed.

(** C4. Filtering the output of a first pass again, against the same
    exclusion set, removes nothing and writes that output again, character
    for character. *)
Theorem refilter_is_identity (content : str) (excl : gset str) :
  let first := filter_pass content excl in
  let second := filter_pass (out_file first) excl in
  removed_count second = 0
  ∧ out_file second = out_file first
  ∧ kept_count second = kept_count first.
Proof.
  intros first second.
  destruct (filter_pass_records excl content) as (Ho1 & Hk1 & _).
  destruct (filter_pass_records excl (out_file first)) as (Ho2 & Hk2 & Hr2).
  fold first in Ho1, Hk1. fold second in Ho2, Hk2, Hr2.
  set (ks := filter (kept excl) (records (stripped_lines content))) in *.
  assert (Hwf : Forall well_formed ks).
  { apply Forall_filter_keep, records_well_formed. }
  assert (Hkept : Forall (kept excl) ks).
  { apply Forall_forall. by intros r [? _]%list_elem_of_filter. }
  assert (Hrec : records (stripped_lines (out_file first)) = unwrapped <$> ks).
  { unfold stripped_lines.
    rewrite Ho1, lines_render, rstrip_two_lines by done.
    by apply records_two_stripped. }
  destruct (filter_kept_unwrapped excl ks Hkept) as [Hf1 Hf2].
  rewrite Hrec, Hf1 in Ho2, Hk2. rewrite Hrec, Hf2 in Hr2.
  split_and!.
  - done.
  - rewrite Ho2, Ho1, <- list_fmap_compose. f_equal.
    apply list_fmap_ext. intros _ r _. apply render_unwrapped.
  - by rewrite Hk2, Hk1, length_fmap.
Qed.

(** C5. The accession of a header line is its first whitespace-delimited
    token without the leading marker character when that token is longer
    than one character, and the empty string otherwise; the skip flag of
    the record that a header line opens is the membership of that
    accession in the exclusion set. *)
Theorem accession_rule (line : str) (excl : gset str) (st : state) :
  accession_of line = Spec.accession line
  ∧ skip_current (loop_body excl st line)
    = (if is_header (rstrip [NL; CR] line)
       then bool_decide (Spec.accession (rstrip [NL; CR] line) ∈ excl)
       else skip_current st).
Proof.
  split; [apply accession_of_spec|].
  unfold loop_body. rewrite startswith_is_header.
  destruct (is_header _); simpl; [by rewrite accession_of_spec|].
  by destruct (current_header st).
Qed.

(** C6. Against an exclusion set produced by the loader, which never
    holds the empty string, a record whose header has a first token of
    length at most one has the empty accession, matches no entry, and is
    written to the output and counted as kept. *)
Theorem short_token_record_is_kept (accession_text content : str) (r : record) :
  let excl := accessions_of_text accession_text in
  let fin := filter_pass content excl in
  r ∈ records (stripped_lines content) →
  length (first_token (header r)) ≤ 1 →
  ([] ∉ excl)
  ∧ accession_of (header r) = []
  ∧ r ∈ filter (kept excl) (records (stripped_lines content))
  ∧ (∃ before after, out_file fin = before ++ render r ++ after)
  ∧ 1 ≤ kept_count fin.
Proof.
  intros excl fin Hr Htok.
  assert (Hempty : [] ∉ excl) by apply empty_not_in_accessions.
  assert (Hacc : accession_of (header r) = []).
  { rewrite accession_of_spec. unfold Spec.accession.
    by rewrite bool_decide_eq_false_2 by lia. }
  assert (Hin : r ∈ filter (kept excl) (records (stripped_lines content))).
  { apply list_elem_of_filter. split; [|done]. unfold kept. by rewrite Hacc. }
  destruct (filter_pass_records excl content) as (Ho & Hk & _).
  fold fin in Ho, Hk. split_and!; [done..| |].
  - rewrite Ho. by apply concat_render_elem.
  - rewrite Hk. apply list_elem_of_split in Hin as (l1 & l2 & ->).
    rewrite length_app. simpl. lia.
Qed.

Lemma short_token_record_is_kept_witness :
  1 ≤ kept_count
        (filter_pass (lit "> no accession" ++ [NL] ++ lit "AAAA" ++ [NL]
                        ++ lit ">ACC1" ++ [NL] ++ lit "CC" ++ [NL])
                     (accessions_of_text (lit "ACC1" ++ [NL]))).
Proof.
  apply (short_token_record_is_kept
           (lit "ACC1" ++ [NL])
           (lit "> no accession" ++ [NL] ++ lit "AAAA" ++ [NL]
              ++ lit ">ACC1" ++ [NL] ++ lit "CC" ++ [NL])
           (Rec (lit "> no accession") [lit "AAAA"])).
  - vm_compute. constructor.
  - vm_compute. lia.
Defined.

(** C7. The loader returns the set of the stripped lines of the file that
    are not empty and do not begin with the comment mark; a file of blank
    lines and comment lines only gives a set of size 0, and filtering any
    input against that set removes nothing. *)
Theorem loader_set (accession_file : str) (w : world) (content : str) :
  files w !! accession_file = Some content →
  ∃ accessions : gset str,
    read_accessions_to_remove accession_file w = Return accessions w
    ∧ (∀ x, x ∈ accessions
            ↔ ∃ line, line ∈ lines content
                      ∧ x = strip line ∧ x ≠ [] ∧ startswith x (lit "#") = false)
    ∧ (forallb blank_or_comment (lines content) = true →
       size accessions = 0
       ∧ ∀ fasta, removed_count (filter_pass fasta accessions) = 0).
Proof.
  intros Hfile. exists (accessions_of_text content). split_and!.
  - unfold read_accessions_to_remove. by rewrite Hfile.
  - apply elem_of_accessions_of_text.
  - intros Hall. rewrite (comments_only_empty content Hall). split.
    + apply size_empty.
    + apply removed_count_empty_set.
Qed.

Lemma loader_set_witness :
  ∃ accessions : gset str,
    read_accessions_to_remove (lit "acc.txt") comments_world
    = Return accessions comments_world
    ∧ size accessions = 0.
Proof.
  destruct (loader_set (lit "acc.txt") comments_world
              (lit "# accessions to drop" ++ [NL] ++ [NL]
                 ++ lit "   " ++ [NL] ++ lit "#ACC1" ++ [NL]))
    as (accessions & Hret & _ & Hcomments).
  - vm_compute. reflexivity.
  - exists accessions. split; [exact Hret|].
    apply Hcomments. vm_compute. reflexivity.
Defined.

End FilterProperties.


(** ** The call of [process_fasta] in a world *)
Section WorldLemmas.
Import Py Spec RemoveAcc Inv Inputs.

Lemma open_sink_writable (k : sink) (w : world) :
  writable_sink k w → open_sink k w = inr (opened k w).
Proof.
  destruct k as [|path]; simpl; [done|]. intros H. unfold open_w. by rewrite H.
Qed.

Lemma process_fasta_returns (input_fasta : str) (output_fasta : option str)
    (excl : gset str) (w : world) (read : str) :
  writable_sink (sink_of output_fasta) w →
  files (opened (sink_of output_fasta) w) !! input_fasta = Some read →
  process_fasta input_fasta output_fasta excl w
  = Return tt (print_stderr (summary (filter_pass read excl))
                 (commit (sink_of output_fasta) (out_file (filter_pass read excl))
                    (opened (sink_of output_fasta) w))).
Proof.
  intros Hw H. unfold process_fasta. cbv zeta.
  by rewrite open_sink_writable, H.
Qed.

(** Opening the sink leaves the input readable; when the sink is the input
    file itself, the input is read empty. *)
Lemma input_after_open_sink (k : sink) (input_fasta : str) (w : world) (content : str) :
  files w !! input_fasta = Some content →
  files (opened k w) !! input_fasta
  = Some (if bool_decide (k = ToFile input_fasta) then [] else content).
Proof.
  intros H. destruct k as [|path]; simpl; [done|].
  case_bool_decide as Hp.
  - injection Hp as ->. apply lookup_insert_eq.
  - rewrite lookup_insert_ne; [done|]. intros ->. done.
Qed.

Lemma commit_open_sink (k : sink) (text : str) (w : world) :
  commit k text (opened k w) = commit k text w.
Proof.
  destruct k; simpl; [done|]. unfold write_file. simpl.
  by rewrite insert_insert_eq.
Qed.

Lemma lookup_open_sink_ne (k : sink) (p : str) (w : world) :
  k ≠ ToFile p → files (opened k w) !! p = files w !! p.
Proof.
  intros Hk. destruct k as [|path]; simpl; [done|].
  apply lookup_insert_ne. intros ->. done.
Qed.

Lemma lookup_commit_ne (k : sink) (text p : str) (w : world) :
  k ≠ ToFile p → files (commit k text w) !! p = files w !! p.
Proof.
  intros Hk. destruct k as [|path]; simpl; [done|].
  apply lookup_insert_ne. intros ->. done.
Qed.

Lemma filter_pass_empty (excl : gset str) : filter_pass [] excl = init.
Proof. reflexivity. Qed.

Lemma filter_by_spec (excl : gset str) (rs : list record) :
  filter (kept_by_spec excl) rs = filter (kept excl) rs
  ∧ filter (λ r, ¬ kept_by_spec excl r) rs = filter (λ r, ¬ kept excl r) rs.
Proof.
  split; apply list_filter_iff; intros r; unfold kept, kept_by_spec;
    by rewrite accession_of_spec.
Qed.

(** The call against the specification: what a call writes and prints
    when its sink opens and is not the file it reads. *)
Lemma process_fasta_spec (input_fasta : str) (output_fasta : option str)
    (excl : gset str) (w : world) (content : str) :
  files w !! input_fasta = Some content →
  sink_of output_fasta ≠ ToFile input_fasta →
  writable_sink (sink_of output_fasta) w →
  let rs := records (stripped_lines content) in
  process_fasta input_fasta output_fasta excl w
  = Return tt
      (print_stderr
         (summary_line (length (filter (kept_by_spec excl) rs))
            (length (filter (λ r, ¬ kept_by_spec excl r) rs)))
         (commit (sink_of output_fasta)
            (concat (render <$> filter (kept_by_spec excl) rs)) w)).
Proof.
  intros Hfile Hsink Hw rs.
  rewrite (process_fasta_returns _ _ _ _ content Hw).
  - rewrite commit_open_sink.
    destruct (filter_pass_records excl content) as (Ho & Hk & Hr).
    destruct (filter_by_spec excl rs) as [-> ->].
    unfold summary, summary_line. by rewrite Ho, Hk, Hr.
  - by rewrite lookup_open_sink_ne.
Qed.

End WorldLemmas.

(** ** Replacing the escaped newlines *)
Section ReplaceLemmas.
Import Py Spec Inv.

Lemma str_pair_ind (P : str → Prop) :
  P [] → (∀ c, P [c]) → (∀ c d s, P s → P (d :: s) → P (c :: d :: s)) →
  ∀ s, P s.
Proof.
  intros H0 H1 H2 s. cut (P s ∧ ∀ c, P (c :: s)); [tauto|].
  induction s as [|d s [IHs IHc]]; [by split|].
  split; [apply IHc|]. intros c. by apply H2.
Qed.

Lemma split_on_escape_step (c d : ascii) (s : str) :
  split_on_escape (c :: d :: s)
  = if bool_decide (c = "\"%char) && bool_decide (d = "n"%char)
    then [] :: split_on_escape s
    else match split_on_escape (d :: s) with
         | seg :: segs => (c :: seg) :: segs
         | [] => [[c]]
         end.
Proof. done. Qed.

Lemma split_on_escape_nonempty (s : str) : split_on_escape s ≠ [].
Proof.
  destruct s as [|c [|d s]]; [done..|]. rewrite split_on_escape_step.
  destruct (_ && _); [done|]. by destruct (split_on_escape (d :: s)).
Qed.

Lemma join_cons_head (sep : str) (c : ascii) (seg : str) (segs : list str) :
  join sep ((c :: seg) :: segs) = c :: join sep (seg :: segs).
Proof. by destruct segs. Qed.

Lemma join_nil_head (sep : str) (segs : list str) :
  segs ≠ [] → join sep ([] :: segs) = sep ++ join sep segs.
Proof. by destruct segs. Qed.

Lemma join_split_on_escape (s : str) : join escape (split_on_escape s) = s.
Proof.
  induction s as [|c|c d s IH1 IH2] using str_pair_ind; [done..|].
  rewrite split_on_escape_step.
  destruct (_ && _) eqn:E.
  - apply andb_prop in E as [->%bool_decide_eq_true ->%bool_decide_eq_true].
    rewrite join_nil_head by apply split_on_escape_nonempty.
    by rewrite IH1.
  - destruct (split_on_escape (d :: s)) as [|seg segs] eqn:Es.
    { by apply split_on_escape_nonempty in Es. }
    by rewrite join_cons_head, IH2.
Qed.

Lemma replace_split_on_escape (s : str) :
  replace escape [NL] s = join [NL] (split_on_escape s).
Proof.
  unfold replace, escape.
  induction s as [|c|c d s IH1 IH2] using str_pair_ind.
  - done.
  - simpl. by rewrite andb_false_r.
  - rewrite split_on_escape_step.
    change (replace_go ["\"; "n"]%char [NL] 0 (c :: d :: s))
      with (if bool_decide (c = "\"%char) && (bool_decide (d = "n"%char) && true)
            then [NL] ++ replace_go ["\"; "n"]%char [NL] 0 s
            else c :: replace_go ["\"; "n"]%char [NL] 0 (d :: s)).
    rewrite andb_true_r. destruct (_ && _) eqn:E.
    + rewrite join_nil_head by apply split_on_escape_nonempty.
      by rewrite IH1.
    + destruct (split_on_escape (d :: s)) as [|seg segs] eqn:Es.
      { by apply split_on_escape_nonempty in Es. }
      by rewrite join_cons_head, IH2.
Qed.

(** The first segment is a prefix of the text. *)
Lemma split_on_escape_head (s : str) :
  ∃ rest, s = hd [] (split_on_escape s) ++ rest.
Proof.
  induction s as [|c|c d s IH1 IH2] using str_pair_ind.
  - by exists [].
  - by exists [].
  - rewrite split_on_escape_step. destruct (_ && _).
    + by eexists.
    + destruct IH2 as [rest Hrest].
      destruct (split_on_escape (d :: s)) as [|seg segs]; simpl in *.
      * exists (d :: s). done.
      * exists rest. by rewrite Hrest at 1.
Qed.

Lemma occurs_in_escape_cons (c : ascii) (seg : str) :
  occurs_in escape (c :: seg)
  = (bool_decide (c = "\"%char)
     && match seg with d :: _ => bool_decide (d = "n"%char) | [] => false end)
    || occurs_in escape seg.
Proof.
  simpl. f_equal. f_equal. destruct seg; simpl; [done|]. by rewrite andb_true_r.
Qed.

Lemma split_on_escape_free (s : str) :
  Forall (λ seg, occurs_in escape seg = false) (split_on_escape s).
Proof.
  induction s as [|c|c d s IH1 IH2] using str_pair_ind.
  - by repeat constructor.
  - repeat constructor. simpl. by rewrite andb_false_r.
  - rewrite split_on_escape_step. destruct (_ && _) eqn:E.
    + by constructor.
    + destruct (split_on_escape_head (d :: s)) as [rest Hrest].
      destruct (split_on_escape (d :: s)) as [|seg segs]; simpl in *.
      { repeat constructor. simpl. by rewrite andb_false_r. }
      apply Forall_cons in IH2 as [Hseg Hsegs].
      constructor; [|done].
      rewrite occurs_in_escape_cons, Hseg, orb_false_r.
      destruct seg as [|d' seg]; [by rewrite andb_false_r|].
      by injection Hrest as <- _.
Qed.

Lemma occurs_in_escape_app_NL (seg rest : str) :
  occurs_in escape seg = false → occurs_in escape rest = false →
  occurs_in escape (seg ++ NL :: rest) = false.
Proof.
  intros Hseg Hrest. induction seg as [|c seg IH].
  - simpl app. rewrite occurs_in_escape_cons, Hrest.
    by rewrite bool_decide_eq_false_2.
  - rewrite occurs_in_escape_cons in Hseg.
    apply orb_false_elim in Hseg as [Hc Hseg].
    simpl app. rewrite occurs_in_escape_cons, (IH Hseg), orb_false_r.
    destruct seg as [|d seg]; simpl app; [|done].
    cbv iota. rewrite (bool_decide_eq_false_2 (NL = _)) by done.
    apply andb_false_r.
Qed.

Lemma join_NL_free (segs : list str) :
  Forall (λ seg, occurs_in escape seg = false) segs →
  occurs_in escape (join [NL] segs) = false.
Proof.
  induction 1 as [|seg segs Hseg _ IH]; [done|].
  destruct segs as [|seg' segs]; [done|].
  change (join [NL] (seg :: seg' :: segs))
    with (seg ++ NL :: join [NL] (seg' :: segs)).
  by apply occurs_in_escape_app_NL.
Qed.

End ReplaceLemmas.

(** ** The properties of the specification: the calls *)
Section CallProperties.
Import Py Spec RemoveAcc KaijuNrPrepare Inv Inputs.

(** C8. The filter raises no error for empty results: whenever the input
    file can be read and the output sink can be opened the call returns;
    on an empty input it writes nothing and reports zero kept and zero
    removed; on an empty exclusion set it removes nothing. *)
Theorem empty_results_raise_no_error (input_fasta : str) (output_fasta : option str)
    (excl : gset str) (w : world) (content : str) :
  files w !! input_fasta = Some content →
  writable_sink (sink_of output_fasta) w →
  ∃ st : state,
    process_fasta input_fasta output_fasta excl w
    = Return tt (print_stderr (summary st)
                   (commit (sink_of output_fasta) (out_file st) w))
    ∧ (content = [] →
       out_file st = [] ∧ kept_count st = 0 ∧ removed_count st = 0
       ∧ summary st = lit "Kept 0 sequences, removed 0 sequences")
    ∧ (excl = ∅ → removed_count st = 0).
Proof.
  intros Hfile Hw.
  set (read := if bool_decide (sink_of output_fasta = ToFile input_fasta)
               then [] else content).
  exists (filter_pass read excl). split_and!.
  - rewrite (process_fasta_returns _ _ _ _ read Hw).
    + by rewrite commit_open_sink.
    + by apply input_after_open_sink.
  - intros ->. replace read with (@nil ascii) by (unfold read; by case_bool_decide).
    rewrite filter_pass_empty. done.
  - intros ->. apply removed_count_empty_set.
Qed.

Lemma empty_results_raise_no_error_witness :
  ∃ st : state,
    process_fasta (lit "in.fa") (Some (lit "out.fa")) ∅ empty_input_world
    = Return tt (print_stderr (summary st)
                   (commit (ToFile (lit "out.fa")) (out_file st) empty_input_world))
    ∧ out_file st = [] ∧ kept_count st = 0 ∧ removed_count st = 0.
Proof.
  destruct (empty_results_raise_no_error (lit "in.fa") (Some (lit "out.fa")) ∅
              empty_input_world [])
    as (st & Hret & Hempty & Hnone).
  - vm_compute. reflexivity.
  - vm_compute. reflexivity.
  - exists st. destruct (Hempty eq_refl) as (Ho & Hk & Hr & _).
    split; [exact Hret|]. split; [exact Ho|]. split; [exact Hk|].
    exact (Hnone eq_refl).
Defined.

(** C10, as the claim states it, fails: two calls on the same input file
    with the same exclusion set differ when one of them writes onto the
    input file itself, which is emptied before it is read. *)
Lemma in_place_run_differs :
  let run1 := process_fasta (lit "a.fa") (Some (lit "a.fa")) ∅ world_a in
  let run2 := process_fasta (lit "a.fa") (Some (lit "out.fa")) ∅ world_a in
  files world_a !! lit "a.fa" = Some fasta1
  ∧ sink_text (ToFile (lit "a.fa")) (world_of run1) = []
  ∧ sink_text (ToFile (lit "out.fa")) (world_of run2)
    = lit ">ACC1 desc one" ++ [NL] ++ lit "AAAACCCC" ++ [NL]
        ++ lit ">ACC2 desc two" ++ [NL] ++ lit "GGGG" ++ [NL]
  ∧ stderr (world_of run1) = lit "Kept 0 sequences, removed 0 sequences" ++ [NL]
  ∧ stderr (world_of run2) = lit "Kept 2 sequences, removed 0 sequences" ++ [NL]
  ∧ sink_text (ToFile (lit "a.fa")) (world_of run1)
    ≠ sink_text (ToFile (lit "out.fa")) (world_of run2)
  ∧ stderr (world_of run1) ≠ stderr (world_of run2).
Proof. vm_compute. split_and!; done. Qed.

(** C10, amended. Two calls whose input files hold the same text, whose
    output sinks can be opened and are not the input file, and whose
    exclusion sets have the same members, write the same text, reach the
    same counts and print the same statistics line, whatever the paths
    and the rest of the two worlds: the text is the records of the input
    whose accession is not excluded, and the counts are the numbers of
    those records and of the others. *)
Theorem process_fasta_deterministic
    (input1 input2 : str) (output1 output2 : option str)
    (excl1 excl2 : gset str) (w1 w2 : world) (content : str) :
  files w1 !! input1 = Some content →
  files w2 !! input2 = Some content →
  sink_of output1 ≠ ToFile input1 →
  sink_of output2 ≠ ToFile input2 →
  writable_sink (sink_of output1) w1 →
  writable_sink (sink_of output2) w2 →
  (∀ x, x ∈ excl1 ↔ x ∈ excl2) →
  let rs := records (stripped_lines content) in
  let written :=
    concat (render <$> filter (λ r, Spec.accession (header r) ∉ excl1) rs) in
  let line :=
    lit "Kept "
      ++ str_of_nat (length (filter (λ r, Spec.accession (header r) ∉ excl1) rs))
      ++ lit " sequences, removed "
      ++ str_of_nat (length (filter (λ r, Spec.accession (header r) ∈ excl1) rs))
      ++ lit " sequences" in
  process_fasta input1 output1 excl1 w1
  = Return tt (print_stderr line (commit (sink_of output1) written w1))
  ∧ process_fasta input2 output2 excl2 w2
    = Return tt (print_stderr line (commit (sink_of output2) written w2)).
Proof.
  intros H1 H2 Hs1 Hs2 Hw1 Hw2 Hexcl rs written line.
  apply set_eq in Hexcl. subst excl2.
  assert (Hrem : filter (λ r, Spec.accession (header r) ∈ excl1) rs
                 = filter (λ r, ¬ kept_by_spec excl1 r) rs).
  { apply list_filter_iff. intros r. unfold kept_by_spec.
    split; [tauto|apply dec_stable]. }
  unfold line. rewrite Hrem. split.
  - by rewrite (process_fasta_spec _ _ _ _ content H1 Hs1 Hw1).
  - by rewrite (process_fasta_spec _ _ _ _ content H2 Hs2 Hw2).
Qed.

Lemma process_fasta_deterministic_witness :
  process_fasta (lit "a.fa") (Some (lit "out.fa"))
    ({[ lit "ACC1" ]} ∪ {[ lit "ACC9" ]}) world_a
  = Return tt (print_stderr (lit "Kept 1 sequences, removed 1 sequences")
                 (commit (ToFile (lit "out.fa"))
                    (lit ">ACC2 desc two" ++ [NL] ++ lit "GGGG" ++ [NL]) world_a))
  ∧ process_fasta (lit "b.fa") None
      ({[ lit "ACC9" ]} ∪ {[ lit "ACC1" ]}) world_b
    = Return tt (print_stderr (lit "Kept 1 sequences, removed 1 sequences")
                   (commit ToStdout
                      (lit ">ACC2 desc two" ++ [NL] ++ lit "GGGG" ++ [NL]) world_b)).
Proof.
  destruct (process_fasta_deterministic
              (lit "a.fa") (lit "b.fa") (Some (lit "out.fa")) None
              ({[ lit "ACC1" ]} ∪ {[ lit "ACC9" ]})
              ({[ lit "ACC9" ]} ∪ {[ lit "ACC1" ]})
              world_a world_b fasta1)
    as (Ha & Hb).
  - vm_compute. reflexivity.
  - vm_compute. reflexivity.
  - vm_compute. discriminate.
  - vm_compute. discriminate.
  - vm_compute. reflexivity.
  - vm_compute. exact I.
  - intros x. rewrite !elem_of_union. tauto.
  - split; [rewrite Ha|rewrite Hb]; vm_compute; reflexivity.
Defined.

(** C9. When the intermediate file can be read and the final path can be
    opened for writing, the post-processing step writes to the final path
    the text of the intermediate file with every escaped newline replaced
    by a newline character and nothing else changed: the text is the
    segments between the escaped newlines joined by the escape, the
    segments hold no escape, what is written is the same segments joined
    by a newline, and no escape is left in it. *)
Theorem convert_replaces_every_escape (input_file output_file : str)
    (w : world) (content : str) :
  files w !! input_file = Some content →
  unwritable w !! output_file = None →
  ∃ segments : list str,
    content = join escape segments
    ∧ Forall (λ seg, occurs_in escape seg = false) segments
    ∧ occurs_in escape (join [NL] segments) = false
    ∧ convert_literal_newlines input_file output_file w
      = Return tt
          (print_stderr
             (lit "Converted literal newlines: " ++ input_file
                ++ lit " -> " ++ output_file)
             (write_file output_file (join [NL] segments) w)).
Proof.
  intros Hfile Hout. exists (split_on_escape content). split_and!.
  - by rewrite join_split_on_escape.
  - apply split_on_escape_free.
  - apply join_NL_free, split_on_escape_free.
  - unfold convert_literal_newlines, open_w. rewrite Hfile, Hout.
    unfold write_file. cbn [files stdout stderr unwritable].
    rewrite insert_insert_eq.
    by rewrite <- replace_split_on_escape.
Qed.

Lemma convert_replaces_every_escape_witness :
  ∃ segments : list str,
    lit ">P1_9606 kinase\nMKV" ++ [NL] ++ lit ">P2_4932 actin\nLLA" ++ [NL]
    = join escape segments
    ∧ convert_literal_newlines (lit "euk_nr.txt") (lit "euk_nr.faa") extractor_world
      = Return tt
          (print_stderr
             (lit "Converted literal newlines: euk_nr.txt -> euk_nr.faa")
             (write_file (lit "euk_nr.faa") (join [NL] segments) extractor_world)).
Proof.
  destruct (convert_replaces_every_escape (lit "euk_nr.txt") (lit "euk_nr.faa")
              extractor_world
              (lit ">P1_9606 kinase\nMKV" ++ [NL]
                 ++ lit ">P2_4932 actin\nLLA" ++ [NL]))
    as (segments & Hjoin & _ & _ & Hret).
  - vm_compute. reflexivity.
  - vm_compute. reflexivity.
  - exists segments. split; [exact Hjoin|exact Hret].
Defined.

Example convert_ex :
  convert_literal_newlines (lit "euk_nr.txt") (lit "euk_nr.faa") extractor_world
  = Return tt
      {| files := {[ lit "euk_nr.txt" :=
                       lit ">P1_9606 kinase\nMKV" ++ [NL]
                         ++ lit ">P2_4932 actin\nLLA" ++ [NL];
                     lit "euk_nr.faa" :=
                       lit ">P1_9606 kinase" ++ [NL] ++ lit "MKV" ++ [NL]
                         ++ lit ">P2_4932 actin" ++ [NL] ++ lit "LLA" ++ [NL] ]};
         stdout := [];
         stderr := lit "Converted literal newlines: euk_nr.txt -> euk_nr.faa"
                     ++ [NL];
         unwritable := ∅ |}.
Proof. vm_compute. reflexivity. Qed.

Example convert_unwritable_ex :
  convert_literal_newlines (lit "in.fa") (lit "nodir/out.fa") locked_world
  = Exit 1
      (print_stderr
         (lit "Error converting newlines: [Errno 2] No such file or directory: 'nodir/out.fa'")
         locked_world).
Proof. vm_compute. reflexivity. Qed.

Example process_fasta_unwritable_ex :
  process_fasta (lit "in.fa") (Some (lit "nodir/out.fa")) ∅ locked_world
  = Raise (FileNotFoundError (lit "nodir/out.fa")) locked_world.
Proof. vm_compute. reflexivity. Qed.

Example repr_ex :
  repr (lit "it's.txt") = ["034"%char] ++ lit "it's.txt" ++ ["034"%char]
  ∧ repr (lit "a'b" ++ ["034"%char]) = lit "'a\'b" ++ ["034"%char] ++ lit "'"
  ∧ repr (lit "dir\f" ++ [NL; "127"%char; "233"%char; "160"%char])
    = lit "'dir\\f\n\x7f" ++ ["233"%char] ++ lit "\xa0'".
Proof. vm_compute. done. Qed.

End CallProperties.

Example split_sep_ex :
  Py.split_sep ["009"%char] (lit "9606" ++ ["009"%char] ++ lit "Homo sapiens" ++ ["009"%char])
  = [lit "9606"; lit "Homo sapiens"; []]
  ∧ Py.split_sep (lit ",") [] = [[]]
  ∧ Py.split_sep (lit "ab") (lit "xabyabab") = [lit "x"; lit "y"; []; []].
Proof. vm_compute. done. Qed.

Example os_path_join_ex :
  Py.os_path_join (lit "out") (lit "euk_nr.txt") = lit "out/euk_nr.txt"
  ∧ Py.os_path_join (lit "out/") (lit "euk_nr.txt") = lit "out/euk_nr.txt".
Proof. vm_compute. done. Qed.

(** ** Further lemmas on the filter *)
Section FurtherFilterLemmas.
Import Py Spec RemoveAcc Inv Inputs.

(** The records that a pass reads back from the output of a pass. *)
Lemma records_of_output (content : str) (excl : gset str) :
  records (stripped_lines (out_file (filter_pass content excl)))
  = unwrapped <$> filter (kept excl) (records (stripped_lines content)).
Proof.
  destruct (filter_pass_records excl content) as (Ho & _).
  assert (Hwf : Forall well_formed
                  (filter (kept excl) (records (stripped_lines content)))).
  { apply Forall_filter_keep, records_well_formed. }
  unfold stripped_lines at 1.
  rewrite Ho, lines_render, rstrip_two_lines by done.
  by apply records_two_stripped.
Qed.

Lemma filter_kept_fmap_unwrapped (excl : gset str) (rs : list record) :
  filter (kept excl) (unwrapped <$> rs) = unwrapped <$> filter (kept excl) rs.
Proof.
  induction rs as [|r rs IH]; [done|].
  rewrite fmap_cons. destruct (decide (kept excl r)) as [Hr|Hr].
  - rewrite (filter_cons_True (kept excl) (unwrapped r)) by exact Hr.
    rewrite (filter_cons_True (kept excl) r) by exact Hr.
    by rewrite fmap_cons, IH.
  - rewrite (filter_cons_False (kept excl) (unwrapped r)) by exact Hr.
    by rewrite (filter_cons_False (kept excl) r) by exact Hr.
Qed.

Lemma concat_render_unwrapped (rs : list record) :
  concat (render <$> (unwrapped <$> rs)) = concat (render <$> rs).
Proof.
  rewrite <- list_fmap_compose. f_equal.
  apply list_fmap_ext. intros _ r _. apply render_unwrapped.
Qed.

Lemma filter_kept_union (excl1 excl2 : gset str) (rs : list record) :
  filter (kept excl2) (filter (kept excl1) rs) = filter (kept (excl1 ∪ excl2)) rs.
Proof.
  rewrite list_filter_filter. apply list_filter_iff.
  intros r. unfold kept. rewrite not_elem_of_union. tauto.
Qed.

(** Two exclusion sets that agree on the accessions of the input give the
    same output and the same counts. *)
Lemma filter_pass_agree (content : str) (excl1 excl2 : gset str) :
  (∀ r, r ∈ records (stripped_lines content) → kept excl1 r ↔ kept excl2 r) →
  out_file (filter_pass content excl1) = out_file (filter_pass content excl2)
  ∧ kept_count (filter_pass content excl1) = kept_count (filter_pass content excl2)
  ∧ removed_count (filter_pass content excl1)
    = removed_count (filter_pass content excl2).
Proof.
  intros Hagree.
  destruct (filter_pass_records excl1 content) as (Ho1 & Hk1 & Hr1).
  destruct (filter_pass_records excl2 content) as (Ho2 & Hk2 & Hr2).
  rewrite Ho1, Ho2, Hk1, Hk2, Hr1, Hr2. clear Ho1 Ho2 Hk1 Hk2 Hr1 Hr2.
  induction (records (stripped_lines content)) as [|r rs IH]; [done|].
  destruct IH as (IHo & IHk & IHr).
  { intros r' Hr'. apply Hagree. by right. }
  assert (Hr : kept excl1 r ↔ kept excl2 r) by (apply Hagree; by left).
  destruct (decide (kept excl1 r)) as [H1|H1].
  - assert (H2 : kept excl2 r) by tauto.
    rewrite (filter_cons_True (kept excl1)), (filter_cons_True (kept excl2)) by done.
    rewrite (filter_cons_False (λ r, ¬ kept excl1 r)),
      (filter_cons_False (λ r, ¬ kept excl2 r)) by tauto.
    rewrite !fmap_cons. simpl. by rewrite IHo, IHk, IHr.
  - assert (H2 : ¬ kept excl2 r) by tauto.
    rewrite (filter_cons_False (kept excl1)), (filter_cons_False (kept excl2)) by done.
    rewrite (filter_cons_True (λ r, ¬ kept excl1 r)),
      (filter_cons_True (λ r, ¬ kept excl2 r)) by done.
    simpl. by rewrite IHo, IHk, IHr.
Qed.

Lemma take_while_Forall {A} (p : A → bool) (l : list A) :
  Forall (λ x, p x = true) (take_while p l).
Proof.
  induction l as [|x l IH]; simpl; [constructor|].
  destruct (p x) eqn:E; by constructor.
Qed.

(** An accession holds no whitespace. *)
Lemma accession_of_no_space (line : str) :
  Forall (λ c, isspace c = false) (accession_of line).
Proof.
  rewrite accession_of_spec. unfold Spec.accession, first_token.
  case_bool_decide; [|constructor].
  apply Forall_drop. eapply Forall_impl; [apply take_while_Forall|].
  intros c Hc. by apply negb_true_iff.
Qed.

Lemma take_while_app_stop {A} (p : A → bool) (l rest : list A) :
  Forall (λ x, p x = true) l →
  match rest with [] => True | x :: _ => p x = false end →
  take_while p (l ++ rest) = l.
Proof.
  intros Hl Hrest. induction Hl as [|x l Hx _ IH]; simpl.
  - destruct rest as [|x rest]; [done|]. simpl. by rewrite Hrest.
  - by rewrite Hx, IH.
Qed.

Lemma records_nil_of_no_header (ls : list str) :
  filter (λ l, is_header l = true) ls = [] → records ls = [].
Proof.
  intros H. apply length_zero_iff_nil. by rewrite length_records, H.
Qed.

Lemma filter_kept_empty (rs : list record) : filter (kept ∅) rs = rs.
Proof.
  induction rs as [|r rs IH]; [done|].
  rewrite filter_cons_True; [by rewrite IH|].
  unfold kept. apply not_elem_of_empty.
Qed.

End FurtherFilterLemmas.

(** ** Further properties of the filter *)
Section FurtherFilterProperties.
Import Py Spec RemoveAcc Inv Inputs.

(** X1. Filtering in two passes, first against one exclusion set and then
    the output against another, writes the same text and keeps the same
    number of records as one pass against the union of the two sets, and
    the removals of the two passes add up to those of the single pass. *)
Theorem filter_twice_is_union (content : str) (excl1 excl2 : gset str) :
  let first := filter_pass content excl1 in
  let second := filter_pass (out_file first) excl2 in
  let both := filter_pass content (excl1 ∪ excl2) in
  out_file second = out_file both
  ∧ kept_count second = kept_count both
  ∧ removed_count first + removed_count second = removed_count both.
Proof.
  intros first second both. unfold second, both, first.
  destruct (filter_pass_records excl1 content) as (_ & Hk1 & Hr1).
  destruct (filter_pass_records excl2 (out_file (filter_pass content excl1)))
    as (Ho2 & Hk2 & Hr2).
  destruct (filter_pass_records (excl1 ∪ excl2) content) as (Ho & Hk & Hr).
  pose proof (length_filter_split (kept excl2)
                (records (stripped_lines (out_file (filter_pass content excl1)))))
    as Hsplit2.
  rewrite <- Hk2, <- Hr2 in Hsplit2.
  rewrite records_of_output in Ho2, Hk2, Hsplit2.
  rewrite filter_kept_fmap_unwrapped, filter_kept_union in Ho2, Hk2.
  rewrite length_fmap in Hk2, Hsplit2.
  pose proof (length_filter_split (kept excl1) (records (stripped_lines content)))
    as Hsplit1.
  pose proof (length_filter_split (kept (excl1 ∪ excl2))
                (records (stripped_lines content))) as Hsplit.
  rewrite <- Hk1, <- Hr1 in Hsplit1. rewrite <- Hk, <- Hr in Hsplit.
  rewrite <- Hk1 in Hsplit2. rewrite <- Hk in Hk2.
  split_and!.
  - by rewrite Ho2, Ho, concat_render_unwrapped.
  - done.
  - lia.
Qed.

(** X2. An entry of the exclusion set that holds a whitespace character
    never matches: with or without it the filter writes the same text and
    counts the same. *)
Theorem entry_with_whitespace_never_matches (content : str) (excl : gset str) (x : str) :
  existsb isspace x = true →
  out_file (filter_pass content (excl ∪ {[ x ]})) = out_file (filter_pass content excl)
  ∧ kept_count (filter_pass content (excl ∪ {[ x ]}))
    = kept_count (filter_pass content excl)
  ∧ removed_count (filter_pass content (excl ∪ {[ x ]}))
    = removed_count (filter_pass content excl).
Proof.
  intros Hx. apply filter_pass_agree. intros r _. unfold kept.
  rewrite not_elem_of_union, not_elem_of_singleton.
  split; [tauto|]. intros Hr. split; [done|]. intros Heq.
  apply existsb_exists in Hx as (c & Hc & Hsp).
  pose proof (accession_of_no_space (header r)) as Hno.
  rewrite Heq, Forall_forall in Hno.
  apply list_elem_of_In in Hc. specialize (Hno c Hc). congruence.
Qed.

Lemma entry_with_whitespace_never_matches_witness :
  kept_count (filter_pass fasta1 (∅ ∪ {[ lit "ACC1 desc one" ]}))
  = kept_count (filter_pass fasta1 ∅).
Proof.
  apply (entry_with_whitespace_never_matches fasta1 ∅ (lit "ACC1 desc one")).
  vm_compute. reflexivity.
Defined.

(** X3. The accession of a header line is what stands between the marker
    and the first whitespace, whatever follows: the description plays no
    part in the matching. *)
Theorem accession_of_header (token rest : str) :
  Forall (λ c, isspace c = false) token →
  match rest with [] => True | c :: _ => isspace c = true end →
  accession_of (">"%char :: token ++ rest) = token.
Proof.
  intros Htok Hrest. rewrite accession_of_spec.
  unfold Spec.accession, first_token.
  change (drop_while isspace (">"%char :: token ++ rest))
    with ((">"%char :: token) ++ rest).
  rewrite take_while_app_stop.
  - destruct token as [|c token]; [done|].
    rewrite bool_decide_eq_true_2; [done|]. simpl. lia.
  - constructor; [done|]. eapply Forall_impl; [done|].
    intros c Hc. by rewrite Hc.
  - destruct rest; [done|]. by rewrite Hrest.
Qed.

Lemma accession_of_header_witness :
  accession_of (">"%char :: lit "sp|P12345|KIN_HUMAN" ++ lit " kinase OS=Homo sapiens")
  = lit "sp|P12345|KIN_HUMAN".
Proof.
  apply (accession_of_header (lit "sp|P12345|KIN_HUMAN") (lit " kinase OS=Homo sapiens")).
  - vm_compute. repeat constructor.
  - vm_compute. reflexivity.
Defined.

(** X4. An input without any header line gives no output and counts
    nothing, whatever its other lines and the exclusion set. *)
Theorem no_header_no_output (content : str) (excl : gset str) :
  header_count content = 0 →
  out_file (filter_pass content excl) = []
  ∧ kept_count (filter_pass content excl) = 0
  ∧ removed_count (filter_pass content excl) = 0.
Proof.
  intros H0.
  destruct (filter_pass_records excl content) as (Ho & Hk & Hr).
  assert (Hrs : records (stripped_lines content) = []).
  { apply length_zero_iff_nil.
    by rewrite length_records, <- header_count_stripped. }
  rewrite Hrs in Ho, Hk, Hr. done.
Qed.

Lemma no_header_no_output_witness :
  out_file (filter_pass (lit "MKV" ++ [NL] ++ lit " >late marker" ++ [NL]) {[ lit "A" ]})
  = [].
Proof.
  apply (no_header_no_output (lit "MKV" ++ [NL] ++ lit " >late marker" ++ [NL])
           {[ lit "A" ]}).
  vm_compute. reflexivity.
Defined.

(** X5. Against the empty exclusion set every record is kept: the kept
    count is the number of header lines, nothing is removed, the output is
    every record of the input on two lines, and read back line by line it
    has two lines for each header line of the input. *)
Theorem empty_set_keeps_all (content : str) :
  let st := filter_pass content ∅ in
  kept_count st = header_count content
  ∧ removed_count st = 0
  ∧ out_file st = concat (render <$> records (stripped_lines content))
  ∧ lines (out_file st) = records (stripped_lines content) ≫= two_lines
  ∧ length (lines (out_file st)) = 2 * header_count content.
Proof.
  intros st.
  destruct (filter_pass_records ∅ content) as (Ho & Hk & Hr).
  fold st in Ho, Hk, Hr.
  rewrite filter_kept_empty in Ho, Hk. rewrite filter_not_kept_empty in Hr.
  assert (Hn : length (records (stripped_lines content)) = header_count content).
  { by rewrite length_records, <- header_count_stripped. }
  assert (Hl : lines (out_file st) = records (stripped_lines content) ≫= two_lines).
  { rewrite Ho. apply lines_render, records_well_formed. }
  split_and!; [by rewrite Hk|done|done|done|].
  rewrite Hl, <- Hn. clear.
  induction (records (stripped_lines content)) as [|r rs IH]; [done|].
  rewrite bind_cons, length_app, IH. simpl. lia.
Qed.

End FurtherFilterProperties.

(** ** Further properties of the calls of remove_acc.py *)
Section FurtherCallProperties.
Import Py Spec RemoveAcc Inv Inputs.

Lemma summary_init : summary init = lit "Kept 0 sequences, removed 0 sequences".
Proof. vm_compute. reflexivity. Qed.

(** X6. When the input file does not exist and is not the output path:
    if the output path cannot be opened for writing, [process_fasta]
    raises the exception of that path and the world is as it was;
    otherwise it raises [FileNotFoundError] for the input path and prints
    no statistics, but the output file has already been opened and is left
    empty, whatever it held before. *)
Theorem process_fasta_missing_input (input_fasta : str) (output_fasta : option str)
    (excl : gset str) (w : world) :
  files w !! input_fasta = None →
  sink_of output_fasta ≠ ToFile input_fasta →
  match sink_of output_fasta with
  | ToStdout =>
      process_fasta input_fasta output_fasta excl w
      = Raise (FileNotFoundError input_fasta) w
  | ToFile path =>
      match unwritable w !! path with
      | Some f =>
          process_fasta input_fasta output_fasta excl w
          = Raise (exn_of_failure f path) w
      | None =>
          process_fasta input_fasta output_fasta excl w
          = Raise (FileNotFoundError input_fasta) (write_file path [] w)
      end
  end.
Proof.
  intros Hnone Hsink. unfold process_fasta. cbv zeta.
  destruct (sink_of output_fasta) as [|path]; simpl.
  - by rewrite Hnone.
  - unfold open_w. destruct (unwritable w !! path); [done|].
    simpl. rewrite lookup_insert_ne, Hnone; [done|]. intros ->. done.
Qed.

Lemma process_fasta_missing_input_witness :
  process_fasta (lit "missing.fa") (Some (lit "old.fa")) ∅ world_b
  = Raise (FileNotFoundError (lit "missing.fa"))
      (write_file (lit "old.fa") [] world_b)
  ∧ process_fasta (lit "missing.fa") (Some (lit "keep.fa")) ∅ locked_world
    = Raise (PermissionError (lit "keep.fa")) locked_world.
Proof.
  split.
  - apply (process_fasta_missing_input (lit "missing.fa") (Some (lit "old.fa"))
             ∅ world_b).
    + vm_compute. reflexivity.
    + vm_compute. discriminate.
  - apply (process_fasta_missing_input (lit "missing.fa") (Some (lit "keep.fa"))
             ∅ locked_world).
    + vm_compute. reflexivity.
    + vm_compute. discriminate.
Defined.

(** X7. Filtering a file onto itself loses it: when the output path is the
    input path and can be opened for writing, the file is emptied before
    it is read, so the call returns with an empty file and reports zero
    kept and zero removed, whatever the file held and whatever the
    exclusion set; when the path cannot be opened for writing the call
    raises the exception of the path and the file is as it was. *)
Theorem process_fasta_in_place (path : str) (excl : gset str) (w : world) :
  path ≠ lit "-" →
  match unwritable w !! path with
  | None =>
      process_fasta path (Some path) excl w
      = Return tt
          (print_stderr (lit "Kept 0 sequences, removed 0 sequences")
             (write_file path [] w))
  | Some f =>
      process_fasta path (Some path) excl w = Raise (exn_of_failure f path) w
  end.
Proof.
  intros Hpath. unfold process_fasta, sink_of.
  rewrite bool_decide_eq_false_2 by done. cbv zeta. simpl. unfold open_w.
  destruct (unwritable w !! path); [done|].
  simpl. rewrite lookup_insert_eq, filter_pass_empty, summary_init.
  unfold write_file. simpl. by rewrite insert_insert_eq.
Qed.

Lemma process_fasta_in_place_witness :
  process_fasta (lit "a.fa") (Some (lit "a.fa")) ∅ world_a
  = Return tt
      (print_stderr (lit "Kept 0 sequences, removed 0 sequences")
         (write_file (lit "a.fa") [] world_a))
  ∧ process_fasta (lit "keep.fa") (Some (lit "keep.fa")) ∅ locked_world
    = Raise (PermissionError (lit "keep.fa")) locked_world.
Proof.
  split.
  - apply (process_fasta_in_place (lit "a.fa") ∅ world_a).
    vm_compute. discriminate.
  - apply (process_fasta_in_place (lit "keep.fa") ∅ locked_world).
    vm_compute. discriminate.
Defined.

(** X8. [process_fasta] touches nothing but its sink and the diagnostics:
    however it ends, every file other than the output file is as before;
    with a file sink standard output is as before, and with standard
    output as the sink no file changes. *)
Theorem process_fasta_frame (input_fasta : str) (output_fasta : option str)
    (excl : gset str) (w : world) (p : str) :
  sink_of output_fasta ≠ ToFile p →
  let w' := world_of (process_fasta input_fasta output_fasta excl w) in
  files w' !! p = files w !! p
  ∧ match sink_of output_fasta with
    | ToFile _ => stdout w' = stdout w
    | ToStdout => files w' = files w
    end.
Proof.
  intros Hp w'. subst w'. unfold process_fasta. cbv zeta.
  destruct (sink_of output_fasta) as [|path] eqn:Hk; simpl.
  - destruct (files w !! input_fasta); simpl; done.
  - unfold open_w. destruct (unwritable w !! path); simpl; [done|].
    assert (Hne : path ≠ p) by (intros ->; done).
    destruct (_ !! input_fasta); simpl; by rewrite ?lookup_insert_ne by done.
Qed.

Lemma process_fasta_frame_witness :
  files (world_of (process_fasta (lit "b.fa") (Some (lit "out.fa")) ∅ world_b))
    !! lit "old.fa"
  = files world_b !! lit "old.fa".
Proof.
  apply (process_fasta_frame (lit "b.fa") (Some (lit "out.fa")) ∅ world_b (lit "old.fa")).
  vm_compute. discriminate.
Defined.

(** X9. The order of the failures of [main] when the sequence file does
    not exist, the output is not that file and the output sink can be
    opened: if the accession file does not exist either, the call raises
    [FileNotFoundError] for the accession file and leaves the world as it
    was; otherwise it raises it for the sequence file, after the number of
    loaded accessions has been printed and the output file has been
    opened, hence emptied. *)
Theorem main_missing_files (fasta_file accession_file output : str) (w : world) :
  files w !! fasta_file = None →
  sink_of (Some output) ≠ ToFile fasta_file →
  writable_sink (sink_of (Some output)) w →
  match files w !! accession_file with
  | None =>
      main fasta_file accession_file output w
      = Raise (FileNotFoundError accession_file) w
  | Some listing =>
      main fasta_file accession_file output w
      = Raise (FileNotFoundError fasta_file)
          (opened (sink_of (Some output))
             (print_stderr
                (lit "Loaded " ++ str_of_nat (size (accessions_of_text listing))
                   ++ lit " accession(s) to remove") w))
  end.
Proof.
  intros Hnone Hsink Hw. unfold main, read_accessions_to_remove.
  destruct (files w !! accession_file) as [listing|]; [|done].
  unfold process_fasta. cbv zeta.
  rewrite open_sink_writable by (by destruct (sink_of (Some output))).
  rewrite lookup_open_sink_ne by done.
  cbn [files print_stderr]. by rewrite Hnone.
Qed.

Lemma main_missing_files_witness :
  main (lit "missing.fa") (lit "acc.txt") (lit "b.fa") world_b
  = Raise (FileNotFoundError (lit "acc.txt")) world_b.
Proof.
  apply (main_missing_files (lit "missing.fa") (lit "acc.txt") (lit "b.fa") world_b).
  - vm_compute. reflexivity.
  - vm_compute. discriminate.
  - vm_compute. reflexivity.
Defined.

(** X10. [main] end to end: with both files present and an output sink
    that can be opened and is not the input file, the call returns; the
    sink receives the records of the input whose accession, in the words
    of the specification, is not a line loaded from the accession file,
    on two lines each and in order, and the diagnostics receive the number
    of distinct loaded accessions and then the counts of kept and removed
    records. *)
Theorem main_filters (fasta_file accession_file output : str) (w : world)
    (content listing : str) :
  files w !! fasta_file = Some content →
  files w !! accession_file = Some listing →
  sink_of (Some output) ≠ ToFile fasta_file →
  writable_sink (sink_of (Some output)) w →
  let excl := accessions_of_text listing in
  let rs := records (stripped_lines content) in
  let written :=
    concat (render <$> filter (λ r, Spec.accession (header r) ∉ excl) rs) in
  main fasta_file accession_file output w
  = Return tt
      (commit (sink_of (Some output)) written
         {| files := files w;
            stdout := stdout w;
            stderr := stderr w
                        ++ (lit "Loaded " ++ str_of_nat (size excl)
                              ++ lit " accession(s) to remove") ++ [NL]
                        ++ (lit "Kept "
                              ++ str_of_nat
                                   (length (filter (λ r, Spec.accession (header r) ∉ excl) rs))
                              ++ lit " sequences, removed "
                              ++ str_of_nat
                                   (length (filter (λ r, Spec.accession (header r) ∈ excl) rs))
                              ++ lit " sequences") ++ [NL];
            unwritable := unwritable w |}).
Proof.
  intros Hfasta Hacc Hsink Hw excl rs written.
  unfold main, read_accessions_to_remove. rewrite Hacc.
  fold excl.
  assert (Hrem : filter (λ r, Spec.accession (header r) ∈ excl) rs
                 = filter (λ r, ¬ kept_by_spec excl r) rs).
  { apply list_filter_iff. intros r. unfold kept_by_spec.
    split; [tauto|apply dec_stable]. }
  rewrite Hrem.
  rewrite (process_fasta_spec _ _ _ _ content).
  - unfold print_stderr, commit, write_file, summary_line.
    destruct (sink_of (Some output)); cbn [files stdout stderr unwritable];
      by rewrite <- !app_assoc.
  - exact Hfasta.
  - exact Hsink.
  - by destruct (sink_of (Some output)).
Qed.

Lemma main_filters_witness :
  main (lit "in.fa") (lit "acc.txt") (lit "-") main_world
  = Return tt
      {| files := files main_world;
         stdout := lit ">ACC2 desc two" ++ [NL] ++ lit "GGGG" ++ [NL];
         stderr := lit "Loaded 1 accession(s) to remove" ++ [NL]
                     ++ lit "Kept 1 sequences, removed 1 sequences" ++ [NL];
         unwritable := ∅ |}.
Proof.
  rewrite (main_filters (lit "in.fa") (lit "acc.txt") (lit "-") main_world
             fasta1
             (lit "# drop" ++ [NL] ++ lit "ACC1" ++ [NL] ++ lit "ACC1" ++ [NL])).
  - vm_compute. reflexivity.
  - vm_compute. reflexivity.
  - vm_compute. reflexivity.
  - vm_compute. discriminate.
  - vm_compute. exact I.
Defined.

End FurtherCallProperties.

(** ** Further lemmas on the loader and on the strip methods *)
Section FurtherLoaderLemmas.
Import Py Spec RemoveAcc Inv Inputs.

Lemma lines_app_terminated (c1 c2 : str) :
  last c1 = Some NL → lines (c1 ++ c2) = lines c1 ++ lines c2.
Proof.
  induction c1 as [|c c1 IH]; [done|]. intros Hlast.
  destruct c1 as [|d c1].
  - injection Hlast as ->. done.
  - specialize (IH Hlast).
    change ((c :: d :: c1) ++ c2) with (c :: ((d :: c1) ++ c2)).
    change (lines (c :: ((d :: c1) ++ c2)))
      with (if bool_decide (c = NL) then [c] :: lines ((d :: c1) ++ c2)
            else match lines ((d :: c1) ++ c2) with
                 | l :: ls => (c :: l) :: ls
                 | [] => [[c]]
                 end).
    change (lines (c :: d :: c1))
      with (if bool_decide (c = NL) then [c] :: lines (d :: c1)
            else match lines (d :: c1) with
                 | l :: ls => (c :: l) :: ls
                 | [] => [[c]]
                 end).
    rewrite IH. case_bool_decide; [done|].
    destruct (lines (d :: c1)) as [|l ls] eqn:E; [|done].
    by apply lines_nonempty in E.
Qed.

Lemma foldl_add_accession_union (ls : list str) (X : gset str) :
  foldl add_accession X ls = X ∪ foldl add_accession ∅ ls.
Proof.
  apply set_eq. intros x.
  rewrite elem_of_union, !elem_of_foldl_add_accession, elem_of_empty. tauto.
Qed.

Lemma lstrip_by_head (p : ascii → bool) (s : str) (c : ascii) (r : str) :
  lstrip_by p s = c :: r → p c = false.
Proof.
  induction s as [|d s IH]; simpl; [done|].
  destruct (p d) eqn:E; [done|]. by intros [= <- _].
Qed.

Lemma lstrip_by_suffix (p : ascii → bool) (s : str) :
  ∃ pre, s = pre ++ lstrip_by p s.
Proof.
  induction s as [|d s [pre IH]]; simpl; [by exists []|].
  destruct (p d); [|by exists []].
  exists (d :: pre). simpl. by rewrite <- IH.
Qed.

Lemma rstrip_by_last (p : ascii → bool) (s : str) (c : ascii) :
  last (rstrip_by p s) = Some c → p c = false.
Proof.
  induction s as [|d s IH]; simpl; [done|].
  destruct (rstrip_by p s) as [|e r] eqn:E.
  - destruct (p d) eqn:Hd; [done|]. by intros [= <-].
  - intros Hlast. apply IH. exact Hlast.
Qed.

Lemma last_app_nonempty {A} (l1 l2 : list A) :
  l2 ≠ [] → last (l1 ++ l2) = last l2.
Proof.
  intros Hne. destruct l2 as [|x l2 _] using rev_ind; [done|].
  by rewrite app_assoc, !last_snoc.
Qed.

(** The ends of a stripped string are not whitespace. *)
Lemma strip_ends (s : str) :
  match strip s with
  | [] => True
  | c :: _ => isspace c = false
              ∧ ∃ d, last (strip s) = Some d ∧ isspace d = false
  end.
Proof.
  unfold strip. destruct (lstrip_by isspace (rstrip_by isspace s)) as [|c r] eqn:E;
    [done|].
  split; [by apply lstrip_by_head in E|].
  destruct (lstrip_by_suffix isspace (rstrip_by isspace s)) as [pre Hpre].
  rewrite E in Hpre.
  assert (Hlast : last (rstrip_by isspace s) = last (c :: r)).
  { rewrite Hpre at 1. by apply last_app_nonempty. }
  destruct (last (c :: r)) as [d|] eqn:Hd.
  - exists d. split; [done|]. by apply (rstrip_by_last isspace s).
  - by apply last_None in Hd.
Qed.

End FurtherLoaderLemmas.

(** ** Further properties of the loader *)
Section FurtherLoaderProperties.
Import Py Spec RemoveAcc Inv Inputs.

(** X11. Exclusion lists add up: the accessions of a list that ends in a
    newline followed by a second list are the union of the accessions of
    the two, so that listing an accession twice changes nothing. *)
Theorem loader_concat_is_union (listing1 listing2 : str) :
  last listing1 = Some NL →
  accessions_of_text (listing1 ++ listing2)
  = accessions_of_text listing1 ∪ accessions_of_text listing2
  ∧ accessions_of_text (listing1 ++ listing1) = accessions_of_text listing1.
Proof.
  intros Hlast.
  assert (Hunion : ∀ l2, accessions_of_text (listing1 ++ l2)
                         = accessions_of_text listing1 ∪ accessions_of_text l2).
  { intros l2. unfold accessions_of_text.
    rewrite lines_app_terminated, foldl_app by done.
    apply foldl_add_accession_union. }
  split; [apply Hunion|].
  rewrite Hunion. apply set_eq. intros x. rewrite elem_of_union. tauto.
Qed.

Lemma loader_concat_is_union_witness :
  accessions_of_text ((lit "ACC1" ++ [NL]) ++ (lit "ACC2" ++ [NL] ++ lit "ACC1"))
  = accessions_of_text (lit "ACC1" ++ [NL])
      ∪ accessions_of_text (lit "ACC2" ++ [NL] ++ lit "ACC1").
Proof.
  apply (loader_concat_is_union (lit "ACC1" ++ [NL]) (lit "ACC2" ++ [NL] ++ lit "ACC1")).
  vm_compute. reflexivity.
Defined.

(** X12. Every accession that the loader returns is a stripped line: it is
    not empty, it begins with a character that is neither whitespace nor
    the comment mark, and it ends with a character that is not
    whitespace. *)
Theorem loaded_accessions_are_stripped (listing x : str) :
  x ∈ accessions_of_text listing →
  ∃ (c d : ascii) (rest : str),
    x = c :: rest
    ∧ isspace c = false ∧ c ≠ "#"%char
    ∧ last x = Some d ∧ isspace d = false.
Proof.
  intros (line & _ & -> & Hne & Hhash)%elem_of_accessions_of_text.
  pose proof (strip_ends line) as Hends.
  destruct (strip line) as [|c rest] eqn:E; [done|].
  destruct Hends as (Hc & d & Hd & Hdsp).
  exists c, d, rest. split_and!; [done|done| |done|done].
  intros ->. cbn in Hhash. by rewrite bool_decide_eq_true_2 in Hhash.
Qed.

Lemma loaded_accessions_are_stripped_witness :
  ∃ (c d : ascii) (rest : str),
    lit "ACC7.1" = c :: rest
    ∧ isspace c = false ∧ c ≠ "#"%char
    ∧ last (lit "ACC7.1") = Some d ∧ isspace d = false.
Proof.
  apply (loaded_accessions_are_stripped
           (lit "# list" ++ [NL] ++ lit "   ACC7.1  " ++ [CR; NL])
           (lit "ACC7.1")).
  vm_compute. reflexivity.
Defined.

End FurtherLoaderProperties.

(** ** Further lemmas on kaiju_nr_prepare.py *)
Section ExtractorLemmas.
Import Py Spec KaijuNrPrepare Inv Inputs.

Lemma split_sep_go_char_cons (d c : ascii) (cur s : str) :
  split_sep_go [d] 0 cur (c :: s)
  = if bool_decide (c = d) then reverse cur :: split_sep_go [d] 0 [] s
    else split_sep_go [d] 0 (c :: cur) s.
Proof. simpl. by rewrite andb_true_r. Qed.

Lemma split_sep_go_char_last (d : ascii) (cur a : str) :
  d ∉ a → split_sep_go [d] 0 cur a = [reverse cur ++ a].
Proof.
  revert cur. induction a as [|c a IH]; intros cur Ha.
  - simpl. by rewrite app_nil_r.
  - apply not_elem_of_cons in Ha as [Hc Ha].
    rewrite split_sep_go_char_cons, bool_decide_eq_false_2 by done.
    rewrite IH by done. by rewrite reverse_cons, <- app_assoc.
Qed.

Lemma split_sep_go_char_app (d : ascii) (cur a rest : str) :
  d ∉ a →
  split_sep_go [d] 0 cur (a ++ d :: rest)
  = (reverse cur ++ a) :: split_sep_go [d] 0 [] rest.
Proof.
  revert cur. induction a as [|c a IH]; intros cur Ha.
  - simpl app. rewrite split_sep_go_char_cons, bool_decide_eq_true_2 by done.
    by rewrite app_nil_r.
  - apply not_elem_of_cons in Ha as [Hc Ha]. simpl app.
    rewrite split_sep_go_char_cons, bool_decide_eq_false_2 by done.
    rewrite IH by done. by rewrite reverse_cons, <- app_assoc.
Qed.

(** Splitting what was joined gives the pieces back. *)
Lemma split_sep_join (d : ascii) (l : list str) :
  l ≠ [] → Forall (λ x, d ∉ x) l → split_sep [d] (join [d] l) = l.
Proof.
  intros Hne Hl. unfold split_sep.
  induction Hl as [|x l Hx Hl IH]; [done|].
  destruct l as [|y l].
  - simpl join. by rewrite split_sep_go_char_last.
  - change (join [d] (x :: y :: l)) with (x ++ d :: join [d] (y :: l)).
    rewrite split_sep_go_char_app by done. by rewrite IH.
Qed.

Lemma take_drop_while {A} (p : A → bool) (l : list A) :
  l = take_while p l ++ drop_while p l.
Proof.
  induction l as [|x l IH]; simpl; [done|].
  destruct (p x); simpl; [by rewrite <- IH|done].
Qed.

Lemma drop_while_head {A} (p : A → bool) (l : list A) :
  match drop_while p l with [] => True | x :: _ => p x = false end.
Proof.
  induction l as [|x l IH]; simpl; [done|].
  destruct (p x) eqn:E; [done|]. simpl. done.
Qed.

(** The first field of a line is what precedes its first tab. *)
Lemma split_sep_tab_head (s : str) :
  ∃ fields,
    split_sep ["009"%char] s
    = take_while (λ c, negb (bool_decide (c = "009"%char))) s :: fields.
Proof.
  set (p := λ c : ascii, negb (bool_decide (c = "009"%char))).
  assert (Htake : "009"%char ∉ take_while p s).
  { intros Hin. pose proof (take_while_Forall p s) as Hall.
    rewrite Forall_forall in Hall. specialize (Hall _ Hin).
    unfold p in Hall. by rewrite bool_decide_eq_true_2 in Hall. }
  pose proof (drop_while_head p s) as Hhead.
  pose proof (take_drop_while p s) as Hs.
  unfold split_sep. revert Htake Hhead Hs.
  generalize (take_while p s) (drop_while p s). intros a [|c rest] Ha Hhead ->.
  - rewrite app_nil_r, split_sep_go_char_last by done. by exists [].
  - unfold p in Hhead. apply negb_false_iff, bool_decide_eq_true in Hhead.
    subst c. rewrite split_sep_go_char_app by done. by eexists.
Qed.

Lemma add_taxon_id_spec (taxon_ids : list str) (line : str) :
  add_taxon_id taxon_ids line = taxon_ids ++ option_list (taxon_id_of line).
Proof.
  unfold add_taxon_id, taxon_id_of.
  case_bool_decide; simpl; [by rewrite app_nil_r|].
  by destruct (split_sep_tab_head (strip line)) as [fields ->].
Qed.

Lemma foldl_add_taxon_id (ls : list str) (taxon_ids : list str) :
  foldl add_taxon_id taxon_ids ls = taxon_ids ++ omap taxon_id_of ls.
Proof.
  revert taxon_ids. induction ls as [|l ls IH]; intros taxon_ids; simpl.
  - by rewrite app_nil_r.
  - rewrite IH, add_taxon_id_spec, <- app_assoc.
    by destruct (taxon_id_of l).
Qed.

Lemma taxon_id_list_spec (content : str) :
  taxon_id_list content = omap taxon_id_of (lines content).
Proof. unfold taxon_id_list. by rewrite foldl_add_taxon_id. Qed.

Lemma taxon_id_of_shape (line id : str) :
  taxon_id_of line = Some id →
  ∃ (c : ascii) (rest : str),
    id = c :: rest ∧ isspace c = false ∧ "009"%char ∉ id.
Proof.
  unfold taxon_id_of. case_bool_decide as Hne; [done|]. intros [= <-].
  pose proof (strip_ends line) as Hends.
  destruct (strip line) as [|c s] eqn:E; [done|].
  destruct Hends as [Hc _].
  assert (Htab : negb (bool_decide (c = "009"%char)) = true).
  { apply negb_true_iff, bool_decide_eq_false. by intros ->. }
  simpl. rewrite Htab. eexists _, _. split_and!; [done|done|].
  intros Hin.
  assert (Hall : Forall (λ x, negb (bool_decide (x = "009"%char)) = true)
                   (c :: take_while (λ c0, negb (bool_decide (c0 = "009"%char))) s)).
  { constructor; [done|apply take_while_Forall]. }
  rewrite Forall_forall in Hall. specialize (Hall _ Hin).
  by rewrite bool_decide_eq_true_2 in Hall.
Qed.

(** A text without escaped newline is its only segment. *)
Lemma split_on_escape_none (s : str) :
  occurs_in escape s = false → split_on_escape s = [s].
Proof.
  induction s as [|c|c d s IH1 IH2] using str_pair_ind; [done..|].
  intros Hocc. rewrite occurs_in_escape_cons in Hocc.
  apply orb_false_elim in Hocc as [Hcd Hocc].
  rewrite split_on_escape_step, Hcd. by rewrite (IH2 Hocc).
Qed.

Lemma replace_no_escape (s : str) :
  occurs_in escape s = false → replace escape [NL] s = s.
Proof.
  intros H. by rewrite replace_split_on_escape, split_on_escape_none.
Qed.

Lemma replace_escape_free (s : str) :
  occurs_in escape (replace escape [NL] s) = false.
Proof.
  rewrite replace_split_on_escape. apply join_NL_free, split_on_escape_free.
Qed.

End ExtractorLemmas.

(** ** Further properties of kaiju_nr_prepare.py *)
Section ExtractorProperties.
Import Py Spec KaijuNrPrepare Inv Inputs.

(** X13. [read_taxon_ids] returns, joined by commas, one identifier for
    every line of the file that is not blank, in order: what precedes the
    first tab of the stripped line.  Every identifier is therefore not
    empty, begins with a character that is not whitespace and holds no
    tab. *)
Theorem read_taxon_ids_returns (input_file : str) (w : world) (content : str) :
  files w !! input_file = Some content →
  let ids := omap taxon_id_of (lines content) in
  read_taxon_ids input_file w = Return (join (lit ",") ids) w
  ∧ Forall (λ id, ∃ (c : ascii) (rest : str),
                    id = c :: rest ∧ isspace c = false ∧ "009"%char ∉ id) ids
  ∧ length ids = length (filter (λ l, strip l ≠ []) (lines content)).
Proof.
  intros Hfile ids. split_and!.
  - unfold read_taxon_ids. by rewrite Hfile, taxon_id_list_spec.
  - apply Forall_forall. intros id Hid. unfold ids in Hid.
    apply list_elem_of_omap in Hid as (line & _ & Hline).
    by apply (taxon_id_of_shape line).
  - unfold ids. induction (lines content) as [|l ls IH]; [done|].
    change (omap taxon_id_of (l :: ls))
      with (match taxon_id_of l with
            | Some id => id :: omap taxon_id_of ls
            | None => omap taxon_id_of ls
            end).
    unfold taxon_id_of at 1. case_bool_decide as Hl.
    + by rewrite filter_cons_False by (intros H; by apply H).
    + rewrite filter_cons_True by done. simpl. by rewrite IH.
Qed.

Lemma read_taxon_ids_returns_witness :
  read_taxon_ids (lit "taxa.tsv") taxon_world = Return (lit "2759,4751") taxon_world.
Proof.
  destruct (read_taxon_ids_returns (lit "taxa.tsv") taxon_world taxon_list)
    as (Hret & _ & _).
  - vm_compute. reflexivity.
  - exact Hret.
Defined.

(** X14. The number of identifiers that [main] reports,
    [len(taxon_ids.split(','))], is the number of identifiers read only
    when there is at least one: for identifiers without comma, splitting
    the joined list gives the identifiers back, and for an empty list it
    gives one empty piece, so that 1 is reported for no identifier. *)
Theorem found_count_of_joined (ids : list str) :
  Forall (λ id, ","%char ∉ id) ids →
  split_sep (lit ",") (join (lit ",") ids)
  = match ids with [] => [[]] | _ => ids end
  ∧ found_count (join (lit ",") ids) = max 1 (length ids).
Proof.
  intros Hids. change (lit ",") with [","%char].
  assert (Hsplit : split_sep [","%char] (join [","%char] ids)
                   = match ids with [] => [[]] | _ => ids end).
  { destruct ids as [|id ids]; [done|]. by apply split_sep_join. }
  split; [done|]. unfold found_count. change (lit ",") with [","%char].
  rewrite Hsplit. destruct ids; simpl; lia.
Qed.

Lemma found_count_of_joined_witness :
  found_count (join (lit ",") [lit "2759"; lit "4751"]) = 2
  ∧ found_count (join (lit ",") []) = 1.
Proof.
  split.
  - apply (found_count_of_joined [lit "2759"; lit "4751"]).
    apply (bool_decide_unpack _). vm_compute. exact I.
  - apply (found_count_of_joined []). constructor.
Defined.

(** X15. [convert_literal_newlines] changes no file but its output file
    and never writes to standard output.  When the input file does not
    exist, or the output file cannot be opened for writing, it exits with
    status 1 after one line of diagnostics that holds the message of the
    exception, with the [repr] of the path, and the output file is neither
    created nor changed. *)
Theorem convert_frame (input_file output_file : str) (w : world) (p : str) :
  p ≠ output_file →
  let o := convert_literal_newlines input_file output_file w in
  files (world_of o) !! p = files w !! p
  ∧ stdout (world_of o) = stdout w
  ∧ match files w !! input_file, unwritable w !! output_file with
    | None, _ =>
        o = Exit 1
              (print_stderr
                 (lit "Error converting newlines: "
                    ++ lit "[Errno 2] No such file or directory: "
                    ++ repr input_file) w)
    | Some _, Some f =>
        o = Exit 1
              (print_stderr
                 (lit "Error converting newlines: "
                    ++ match f with
                       | NoSuchDirectory => lit "[Errno 2] No such file or directory: "
                       | PermissionDenied => lit "[Errno 13] Permission denied: "
                       | IsADirectory => lit "[Errno 21] Is a directory: "
                       end
                    ++ repr output_file) w)
    | Some _, None => ∃ w', o = Return tt w'
    end.
Proof.
  intros Hp. unfold convert_literal_newlines, open_w.
  destruct (files w !! input_file); [|done].
  destruct (unwritable w !! output_file) as [f|].
  - split_and!; [done..|]. by destruct f.
  - cbn [world_of files stdout print_stderr write_file].
    rewrite insert_insert_eq, lookup_insert_ne by done.
    split_and!; [done..|]. by eexists.
Qed.

Lemma convert_frame_witness :
  files (world_of (convert_literal_newlines (lit "euk_nr.txt") (lit "euk_nr.faa")
                     extractor_world)) !! lit "euk_nr.txt"
  = files extractor_world !! lit "euk_nr.txt".
Proof.
  apply (convert_frame (lit "euk_nr.txt") (lit "euk_nr.faa") extractor_world
           (lit "euk_nr.txt")).
  vm_compute. discriminate.
Defined.

(** X16. Converting is idempotent and may be done in place: when the
    paths written can be opened for writing, converting the converted
    file again, onto any such path, writes the same text, since no escaped
    newline is left in it. *)
Theorem convert_twice (input_file middle final : str) (w : world) (content : str) :
  files w !! input_file = Some content →
  unwritable w !! middle = None →
  unwritable w !! final = None →
  ∃ (w1 w2 : world) (converted : str),
    convert_literal_newlines input_file middle w = Return tt w1
    ∧ files w1 !! middle = Some converted
    ∧ occurs_in escape converted = false
    ∧ convert_literal_newlines middle final w1 = Return tt w2
    ∧ files w2 !! final = Some converted.
Proof.
  intros Hfile Hmid Hfin. unfold convert_literal_newlines at 1, open_w at 1.
  rewrite Hfile, Hmid.
  eexists _, _, (replace escape [NL] content). split_and!.
  - reflexivity.
  - cbn [files print_stderr write_file].
    by rewrite insert_insert_eq, lookup_insert_eq.
  - apply replace_escape_free.
  - unfold convert_literal_newlines, open_w.
    cbn [files unwritable print_stderr write_file].
    rewrite insert_insert_eq, lookup_insert_eq, Hfin.
    change ["\"; "n"]%char with escape.
    rewrite (replace_no_escape (replace escape [NL] content))
      by apply replace_escape_free.
    reflexivity.
  - cbn [files print_stderr write_file].
    by rewrite insert_insert_eq, lookup_insert_eq.
Qed.

Lemma convert_twice_witness :
  ∃ (w1 w2 : world) (converted : str),
    convert_literal_newlines (lit "euk_nr.txt") (lit "euk_nr.txt") extractor_world
    = Return tt w1
    ∧ files w1 !! lit "euk_nr.txt" = Some converted
    ∧ convert_literal_newlines (lit "euk_nr.txt") (lit "euk_nr.faa") w1 = Return tt w2
    ∧ files w2 !! lit "euk_nr.faa" = Some converted.
Proof.
  destruct (convert_twice (lit "euk_nr.txt") (lit "euk_nr.txt") (lit "euk_nr.faa")
              extractor_world
              (lit ">P1_9606 kinase\nMKV" ++ [NL]
                 ++ lit ">P2_4932 actin\nLLA" ++ [NL]))
    as (w1 & w2 & converted & H1 & H2 & _ & H3 & H4).
  - vm_compute. reflexivity.
  - vm_compute. reflexivity.
  - vm_compute. reflexivity.
  - exists w1, w2, converted. split; [exact H1|]. split; [exact H2|].
    split; [exact H3|exact H4].
Defined.

(** X17. When the output path can be opened for writing, a text without
    escaped newline is copied to it as it is. *)
Theorem convert_without_escape_copies (input_file output_file : str)
    (w : world) (content : str) :
  files w !! input_file = Some content →
  unwritable w !! output_file = None →
  occurs_in escape content = false →
  ∃ w' : world,
    convert_literal_newlines input_file output_file w = Return tt w'
    ∧ files w' = <[output_file := content]> (files w).
Proof.
  intros Hfile Hout Hnone. unfold convert_literal_newlines, open_w.
  rewrite Hfile, Hout.
  eexists. split; [reflexivity|]. cbn [files print_stderr write_file].
  change ["\"; "n"]%char with escape.
  by rewrite insert_insert_eq, replace_no_escape.
Qed.

Lemma convert_without_escape_copies_witness :
  ∃ w' : world,
    convert_literal_newlines (lit "a.fa") (lit "copy.fa") world_a = Return tt w'
    ∧ files w' = <[lit "copy.fa" := fasta1]> (files world_a).
Proof.
  apply (convert_without_escape_copies (lit "a.fa") (lit "copy.fa") world_a fasta1).
  - vm_compute. reflexivity.
  - vm_compute. reflexivity.
  - vm_compute. reflexivity.
Defined.

(** X18. The two output paths that [main] determines are never the same
    path, so the final file never replaces the intermediate one: when the
    final path can be opened for writing, after the conversion the
    intermediate file still holds the raw text and the final file the
    converted one. *)
Theorem final_output_keeps_intermediate (isdir : bool) (output : str)
    (w : world) (raw : str) :
  let intermediate_file := (output_paths isdir output).1 in
  let final_output := (output_paths isdir output).2 in
  files w !! intermediate_file = Some raw →
  unwritable w !! final_output = None →
  intermediate_file ≠ final_output
  ∧ ∃ w' : world,
      convert_literal_newlines intermediate_file final_output w = Return tt w'
      ∧ files w' !! intermediate_file = Some raw
      ∧ files w' !! final_output = Some (replace escape [NL] raw).
Proof.
  intros intermediate_file final_output Hfile Hout.
  assert (Hne : intermediate_file ≠ final_output).
  { unfold intermediate_file, final_output, output_paths, os_path_join.
    destruct isdir; simpl.
    - change (startswith (lit "euk_nr.txt") (lit "/")) with false.
      change (startswith (lit "euk_nr.faa") (lit "/")) with false.
      cbv iota.
      destruct (bool_decide (output = []) || endswith_char output "/"%char);
        intros H; repeat apply app_inv_head in H; discriminate H.
    - intros H. apply app_inv_head in H. discriminate H. }
  split; [done|].
  unfold convert_literal_newlines, open_w. rewrite Hfile, Hout.
  eexists. split; [reflexivity|]. cbn [files print_stderr write_file].
  rewrite insert_insert_eq. split.
  - by rewrite lookup_insert_ne.
  - by rewrite lookup_insert_eq.
Qed.

Lemma final_output_keeps_intermediate_witness :
  lit "euk_nr.txt" ≠ lit "euk_nr.faa"
  ∧ ∃ w' : world,
      convert_literal_newlines (lit "euk_nr.txt") (lit "euk_nr.faa") extractor_world
      = Return tt w'
      ∧ files w' !! lit "euk_nr.txt"
        = Some (lit ">P1_9606 kinase\nMKV" ++ [NL]
                  ++ lit ">P2_4932 actin\nLLA" ++ [NL])
      ∧ files w' !! lit "euk_nr.faa"
        = Some (replace escape [NL]
                  (lit ">P1_9606 kinase\nMKV" ++ [NL]
                     ++ lit ">P2_4932 actin\nLLA" ++ [NL])).
Proof.
  apply (final_output_keeps_intermediate false (lit "euk_nr") extractor_world
           (lit ">P1_9606 kinase\nMKV" ++ [NL]
              ++ lit ">P2_4932 actin\nLLA" ++ [NL])).
  - vm_compute. reflexivity.
  - vm_compute. reflexivity.
Defined.

End ExtractorProperties.

(** ** Blank lines in the input of the filter *)
Section BlankLines.
Import Py Spec RemoveAcc Inv Inputs.

Lemma consistent_loop_body (excl : gset str) (st : state) (l : str) :
  consistent excl st → consistent excl (loop_body excl st l).
Proof.
  intros Hst. unfold loop_body.
  destruct (startswith _ _); [by intros h [= <-]|].
  destruct (current_header st) as [h|] eqn:Hh; [|done].
  intros h' Hh'. simpl in *. apply Hst. congruence.
Qed.

Lemma consistent_foldl (excl : gset str) (ls : list str) (st : state) :
  consistent excl st → consistent excl (foldl (loop_body excl) st ls).
Proof.
  revert st. induction ls as [|l ls IH]; intros st Hst; [done|].
  simpl. by apply IH, consistent_loop_body.
Qed.

Lemma lines_with_blank (a b : str) :
  a = [] ∨ last a = Some NL →
  lines (a ++ NL :: b) = lines a ++ [NL] :: lines b
  ∧ lines (a ++ b) = lines a ++ lines b.
Proof.
  intros [->|Ha]; [done|].
  by rewrite !lines_app_terminated by done.
Qed.

(** The state after a blank line. *)
Lemma loop_body_blank (excl : gset str) (st : state) :
  loop_body excl st [NL]
  = match current_header st with
    | Some _ =>
        {| removed_count := removed_count st;
           kept_count := kept_count st;
           current_header := current_header st;
           current_sequence := current_sequence st ++ [[]];
           skip_current := skip_current st;
           out_file := out_file st |}
    | None => st
    end.
Proof. done. Qed.

Lemma pass_from_blank (excl : gset str) (st : state) (ls : list str) :
  consistent excl st →
  let st' := loop_body excl st [NL] in
  out_file (pass_from excl st' ls) = out_file (pass_from excl st ls)
  ∧ kept_count (pass_from excl st' ls) = kept_count (pass_from excl st ls)
  ∧ removed_count (pass_from excl st' ls) = removed_count (pass_from excl st ls).
Proof.
  intros Hst st'.
  assert (Hst' : consistent excl st') by by apply consistent_loop_body.
  destruct (pass_from_records excl ls st Hst) as (Ho & Hk & Hr).
  destruct (pass_from_records excl ls st' Hst') as (Ho' & Hk' & Hr').
  rewrite Ho, Hk, Hr, Ho', Hk', Hr'. clear Ho Hk Hr Ho' Hk' Hr' Hst Hst'.
  unfold st'. rewrite loop_body_blank. unfold pending.
  destruct (current_header st) as [h|] eqn:Hh; [|by rewrite ?Hh].
  cbn [current_header current_sequence out_file kept_count removed_count].
  rewrite ?Hh.
  set (tw := take_while (λ x, negb (is_header x)) (rstrip [NL; CR] <$> ls)).
  set (rs := records (rstrip [NL; CR] <$> ls)).
  assert (Hrender : render (Rec h ((current_sequence st ++ [[]]) ++ tw))
                    = render (Rec h (current_sequence st ++ tw))).
  { unfold render, two_lines. cbn [header sequence_lines].
    rewrite !concat_app. change (concat [[]]) with (@nil ascii).
    by rewrite app_nil_r. }
  change ([Rec h ((current_sequence st ++ [[]]) ++ tw)] ++ rs)
    with (Rec h ((current_sequence st ++ [[]]) ++ tw) :: rs).
  change ([Rec h (current_sequence st ++ tw)] ++ rs)
    with (Rec h (current_sequence st ++ tw) :: rs).
  destruct (decide (kept excl (Rec h (current_sequence st ++ tw)))) as [Hkept|Hkept].
  - rewrite !(filter_cons_True (kept excl) (Rec h _)) by exact Hkept.
    rewrite !(filter_cons_False (λ r, ¬ kept excl r) (Rec h _))
      by (intros H; exact (H Hkept)).
    rewrite !fmap_cons, Hrender. done.
  - rewrite !(filter_cons_False (kept excl) (Rec h _)) by exact Hkept.
    rewrite !(filter_cons_True (λ r, ¬ kept excl r) (Rec h _)) by exact Hkept.
    done.
Qed.

(** X19. A blank line changes nothing: put between two lines of the input,
    or before the first one, it leaves the text that the filter writes and
    the two counts as they are without it. *)
Theorem blank_line_is_harmless (a b : str) (excl : gset str) :
  a = [] ∨ last a = Some NL →
  out_file (filter_pass (a ++ NL :: b) excl) = out_file (filter_pass (a ++ b) excl)
  ∧ kept_count (filter_pass (a ++ NL :: b) excl)
    = kept_count (filter_pass (a ++ b) excl)
  ∧ removed_count (filter_pass (a ++ NL :: b) excl)
    = removed_count (filter_pass (a ++ b) excl).
Proof.
  intros Ha. destruct (lines_with_blank a b Ha) as [Hl1 Hl2].
  unfold filter_pass. rewrite Hl1, Hl2. unfold pass_from.
  rewrite !foldl_app. simpl foldl.
  apply (pass_from_blank excl (foldl (loop_body excl) init (lines a)) (lines b)).
  apply consistent_foldl, consistent_init.
Qed.

Lemma blank_line_is_harmless_witness :
  out_file (filter_pass ((lit ">ACC2 two" ++ [NL] ++ lit "GG" ++ [NL])
                           ++ NL :: (lit "CC" ++ [NL])) ∅)
  = out_file (filter_pass ((lit ">ACC2 two" ++ [NL] ++ lit "GG" ++ [NL])
                             ++ (lit "CC" ++ [NL])) ∅).
Proof.
  apply (blank_line_is_harmless (lit ">ACC2 two" ++ [NL] ++ lit "GG" ++ [NL])
           (lit "CC" ++ [NL]) ∅).
  right. vm_compute. reflexivity.
Defined.

End BlankLines.
